(** * HammametGlow: the gamification engine (points, badges, ranking)

    A shallow embedding of
      - backend/src/services/firebase.service.ts   (FirebaseService)
      - backend/src/services/gamification.service.ts (CacheService,
        GamificationService)
    together with the properties the specification states about them.

    Modelling conventions.
      - Firestore is an ideal document store: the [users] collection is a
        finite map from document id to document, the [badges] and
        [submissions] collections (written with [add], which draws a fresh
        id) are lists in insertion order.
      - Every await on Firestore or Redis may reject.  The [faults] field of
        the world is the schedule of these rejections: each remote call
        consumes one entry, [true] meaning that the call rejects; an exhausted
        schedule means that every remaining call succeeds.
      - [new Date()] reads a logical clock that ticks at every read.
      - JavaScript numbers are modelled by [Z]: point totals stay in the
        range where [+] on doubles is exact.
      - The Firestore client validates a document before it sends a write:
        it throws on a field whose value is [undefined], since the code never
        enables [ignoreUndefinedProperties].  The only write of this code
        that can carry such a field is [createBadge], through the optional
        [metadata] of [awardBadge]; it is modelled there.
      - [console.log] and [console.error] are not modelled, nor is the
        expiry of cache entries. *)

From Stdlib Require Import ZArith Lia.
From stdpp Require Import base option list gmap strings sorting.

Local Open Scope string_scope.
Local Open Scope list_scope.
Local Open Scope nat_scope.

(** ** Documents *)

(** Field values of a Firestore document, as far as this code reads or
    writes them. *)
Inductive Val :=
  | VNum (n : Z)
  | VStr (s : string)
  | VBool (b : bool)
  | VNull
  | VTime (t : nat)
  | VArr (l : list string).

(** A [users] document: the interface [User] cast over [doc.data()]. *)
Abbreviation Doc := (gmap string Val).

(** [Submission.status]: 'pending' | 'approved' | 'rejected'. *)
Inductive Status := pending | approved | rejected.

Global Instance Status_eq_dec : EqDecision Status.
Proof. solve_decision. Defined.

Record Submission := mkSubmission {
  s_userId : string;
  s_challengeId : string;
  s_status : Status;
  s_score : option Z;          (* score?: number *)
  s_createdAt : nat
}.

Record Badge := mkBadge {
  b_userId : string;
  b_type : string;
  b_metadata : option Val;     (* metadata?: any *)
  b_createdAt : nat
}.

(** Values held by the Redis cache (JSON, as far as they are used here). *)
Inductive CacheVal :=
  | CArr (l : list Doc)
  | CObj (d : Doc)
  | CNum (n : Z).

(** ** The world: both stores, the clock and the rejection schedule *)

Record World := mkWorld {
  users : gmap string Doc;
  badges : list Badge;
  submissions : list Submission;
  redis : option (gmap string CacheVal);   (* null when not configured *)
  clock : nat;
  faults : list bool
}.

Definition set_users (f : gmap string Doc → gmap string Doc) (w : World) : World :=
  mkWorld (f (users w)) (badges w) (submissions w) (redis w) (clock w) (faults w).
Definition set_badges (f : list Badge → list Badge) (w : World) : World :=
  mkWorld (users w) (f (badges w)) (submissions w) (redis w) (clock w) (faults w).
Definition set_redis (f : gmap string CacheVal → gmap string CacheVal) (w : World) : World :=
  mkWorld (users w) (badges w) (submissions w) (f <$> redis w) (clock w) (faults w).
Definition set_clock (c : nat) (w : World) : World :=
  mkWorld (users w) (badges w) (submissions w) (redis w) c (faults w).
Definition set_faults (fl : list bool) (w : World) : World :=
  mkWorld (users w) (badges w) (submissions w) (redis w) (clock w) fl.

(** ** Promises: a state and exception monad *)

Inductive Error :=
  | JsError (msg : string)       (* new Error(msg) *)
  | TypeError                    (* calling a method a value does not have *)
  | Rejected.                    (* a remote call that rejects *)

Inductive Result (A : Type) :=
  | Ok (a : A)
  | Throw (e : Error).
Arguments Ok {A} a.
Arguments Throw {A} e.

Definition M (A : Type) : Type := World → Result A * World.

Global Instance M_ret : MRet M := λ A a w, (Ok a, w).
Global Instance M_bind : MBind M := λ A B f m w,
  match m w with
  | (Ok a, w') => f a w'
  | (Throw e, w') => (Throw e, w')
  end.

Definition throw {A} (e : Error) : M A := λ w, (Throw e, w).

(** try { m } catch (error) { h error } *)
Definition try_catch {A} (m : M A) (h : Error → M A) : M A := λ w,
  match m w with
  | (Ok a, w') => (Ok a, w')
  | (Throw e, w') => h e w'
  end.

Definition get_world : M World := λ w, (Ok w, w).
Definition modify (f : World → World) : M unit := λ w, (Ok tt, f w).

(** One remote call: it rejects when the schedule says so. *)
Definition attempt : M unit := λ w,
  match faults w with
  | true :: fl => (Throw Rejected, set_faults fl w)
  | false :: fl => (Ok tt, set_faults fl w)
  | [] => (Ok tt, w)
  end.

(** new Date().toISOString() *)
Definition now : M nat := λ w, (Ok (clock w), set_clock (S (clock w)) w).

(** Query results come back ordered by [createdAt], newest first. *)
Definition newer_first {A} (key : A → nat) (x y : A) : Prop := key y ≤ key x.

Global Instance newer_first_dec {A} (key : A → nat) : RelDecision (newer_first key).
Proof. intros x y. unfold newer_first. apply _. Defined.

Definition orderBy_desc {A} (key : A → nat) (l : list A) : list A :=
  merge_sort (newer_first key) l.

(** ** FirebaseService *)

(** A property of an object literal: absent, present with the value
    [undefined], or present with a value. *)
Inductive Property (A : Type) :=
  | Absent
  | Undefined
  | Present (a : A).
Arguments Absent {A}.
Arguments Undefined {A}.
Arguments Present {A} a.

(** What Firestore stores for a property that passed the client's check. *)
Definition stored {A} (p : Property A) : option A :=
  match p with
  | Present a => Some a
  | Absent | Undefined => None
  end.

Module FirebaseService.

(** doc.exists ? { id: doc.id, ...doc.data() } : null *)
Definition getUser (userId : string) : M (option Doc) :=
  _ ← attempt;
  w ← get_world;
  mret ((λ d : Doc, d ∪ {[ "id" := VStr userId ]}) <$> users w !! userId).

(** update({...updates, updatedAt}): rejects when the document does not
    exist, otherwise overwrites exactly the fields given. *)
Definition updateUser (userId : string) (updates : Doc) : M unit :=
  t ← now;
  _ ← attempt;
  w ← get_world;
  match users w !! userId with
  | None => throw Rejected
  | Some d =>
      modify (set_users (insert userId (<[ "updatedAt" := VTime t ]> updates ∪ d)))
  end.

Definition getUserSubmissions (userId : string) : M (list Submission) :=
  _ ← attempt;
  w ← get_world;
  mret (orderBy_desc s_createdAt
          (filter (λ s, s_userId s = userId) (submissions w))).

(** add({...badgeData, createdAt}), for badge data with [userId] and
    [type] (as its only caller passes them) and a [metadata] property that
    may be absent.  The Firestore client checks the document before it sends
    anything: a property whose value is [undefined] makes [add] throw (the
    setting ignoreUndefinedProperties, which would drop such properties, is
    never enabled in this repository).  The fresh document id is modelled by
    the position of the new document in the collection. *)
Definition createBadge (userId type : string) (metadata : Property Val) : M nat :=
  t ← now;
  match metadata with
  | Undefined =>
      throw (JsError "Cannot use undefined as a Firestore value (found in field metadata)")
  | Absent | Present _ =>
      _ ← attempt;
      w ← get_world;
      _ ← modify (set_badges (λ bs, bs ++ [mkBadge userId type (stored metadata) t]));
      mret (length (badges w))
  end.

Definition getUserBadges (userId : string) : M (list Badge) :=
  _ ← attempt;
  w ← get_world;
  mret (orderBy_desc b_createdAt
          (filter (λ b, b_userId b = userId) (badges w))).

(** awardBadge(userId, badgeType, metadata?) calls
    createBadge({userId, type: badgeType, metadata}): the object literal
    always has a [metadata] property, whose value is [undefined] when the
    caller passes two arguments ([metadata = None]). *)
Definition awardBadge (userId badgeType : string) (metadata : option Val) : M nat :=
  createBadge userId badgeType
    (match metadata with
     | None => Undefined
     | Some v => Present v
     end).

(** set({...userData, createdAt, updatedAt}): creates the document or
    replaces it as a whole. *)
Definition createUser (userId : string) (userData : Doc) : M unit :=
  createdAt ← now;
  updatedAt ← now;
  _ ← attempt;
  modify (set_users (insert userId
            (<[ "updatedAt" := VTime updatedAt ]>
               (<[ "createdAt" := VTime createdAt ]> userData)))).

(** delete(): succeeds whether or not the document exists. *)
Definition deleteUser (userId : string) : M unit :=
  _ ← attempt;
  modify (set_users (delete userId)).

End FirebaseService.

(** A JavaScript number, as far as [parseInt] can produce one here. *)
Inductive JsNumber :=
  | Num (n : Z)
  | NaN.

(** ** CacheService *)

Module CacheService.

(** redis.keys(pattern): every pattern used here is a literal prefix
    followed by a star. *)
Definition keys_matching (prefix : string) (m : gmap string CacheVal) : list string :=
  filter (λ k, String.prefix prefix k = true) (elements (dom m)).

Definition get (key : string) : M (option CacheVal) :=
  w ← get_world;
  match redis w with
  | None => mret None
  | Some _ =>
      try_catch
        (_ ← attempt; w ← get_world; mret (redis w ≫= (λ m, m !! key)))
        (λ _, mret None)
  end.

(** The value is stored with a time to live; expiry is not modelled. *)
Definition set (key : string) (value : CacheVal) : M unit :=
  w ← get_world;
  match redis w with
  | None => mret tt
  | Some _ =>
      try_catch (_ ← attempt; modify (set_redis (insert key value)))
                (λ _, mret tt)
  end.

Definition del (key : string) : M unit :=
  w ← get_world;
  match redis w with
  | None => mret tt
  | Some _ =>
      try_catch (_ ← attempt; modify (set_redis (delete key)))
                (λ _, mret tt)
  end.

Definition delPattern (prefix : string) : M unit :=
  w ← get_world;
  match redis w with
  | None => mret tt
  | Some m =>
      try_catch
        (_ ← attempt;
         let keys := keys_matching prefix m in
         if bool_decide (0 < length keys)
         then _ ← attempt; modify (set_redis (λ m, foldr delete m keys))
         else mret tt)
        (λ _, mret tt)
  end.

Definition invalidateUserCache (userId : string) : M unit :=
  _ ← del ("user:" +:+ userId);
  delPattern ("user:" +:+ userId +:+ ":").

Definition cacheLeaderboard (type : string) (data : CacheVal) : M unit :=
  set ("leaderboard:" +:+ type) data.

Definition getCachedLeaderboard (type : string) : M (option CacheVal) :=
  get ("leaderboard:" +:+ type).

Definition invalidateLeaderboardCache : M unit :=
  delPattern "leaderboard:".

Definition exists_ (key : string) : M bool :=
  w ← get_world;
  match redis w with
  | None => mret false
  | Some _ =>
      try_catch
        (_ ← attempt; w ← get_world;
         mret (bool_decide (is_Some (redis w ≫= (λ m, m !! key)))))
        (λ _, mret false)
  end.

Definition cacheUser (userId : string) (userData : CacheVal) : M unit :=
  set ("user:" +:+ userId) userData.

Definition getCachedUser (userId : string) : M (option CacheVal) :=
  get ("user:" +:+ userId).

Definition invalidateSubmissionCache (userId challengeId : string) : M unit :=
  _ ← delPattern ("submissions:user:" +:+ userId);
  _ ← delPattern ("submissions:challenge:" +:+ challengeId);
  invalidateLeaderboardCache.

(** redis.incr(key): a missing key counts from 0; a value that is not an
    integer makes the command fail.  redis.expire(key, ttl) is a remote
    call with no effect here, expiry not being modelled. *)
Definition incrementRateLimit (key : string) (ttl : nat) : M Z :=
  w ← get_world;
  match redis w with
  | None => mret 0%Z
  | Some _ =>
      try_catch
        (_ ← attempt;
         w ← get_world;
         current ← match redis w ≫= (λ m, m !! key) with
                   | None => mret 1%Z
                   | Some (CNum n) => mret (n + 1)%Z
                   | Some _ => throw (JsError "ERR value is not an integer")
                   end;
         _ ← modify (set_redis (insert key (CNum current)));
         _ ← (if bool_decide (current = 1%Z) then attempt else mret tt);
         mret current)
        (λ _, mret 0%Z)
  end.

(** value ? parseInt(value, 10) : 0 *)
Definition getRateLimit (key : string) : M JsNumber :=
  w ← get_world;
  match redis w with
  | None => mret (Num 0)
  | Some _ =>
      try_catch
        (_ ← attempt;
         w ← get_world;
         match redis w ≫= (λ m, m !! key) with
         | None => mret (Num 0)
         | Some (CNum n) => mret (Num n)
         | Some _ => mret NaN
         end)
        (λ _, mret (Num 0))
  end.

End CacheService.

(** ** GamificationService *)

(** The object [getUserRank] resolves with. *)
Record RankInfo := mkRankInfo {
  rank : nat;
  totalUsers : nat;
  percentile : nat
}.

(** [arr.slice(0, limit)] for an integer [limit]: a negative end counts
    from the end of the array. *)
Definition slice0 {A} (limit : Z) (l : list A) : list A :=
  if bool_decide (limit < 0)%Z
  then take (Z.to_nat (Z.of_nat (length l) + limit)) l
  else take (Z.to_nat limit) l.

(** for (const x of xs) { await body(x) } *)
Fixpoint for_each {A} (xs : list A) (body : A → M unit) : M unit :=
  match xs with
  | [] => mret tt
  | x :: xs' => _ ← body x; for_each xs' body
  end.

Module GamificationService.

Module POINTS.
Definition CHALLENGE_COMPLETION : Z := 100.
Definition FIRST_CHALLENGE : Z := 50.
Definition SUBMISSION_APPROVED : Z := 150.
Definition DAILY_LOGIN : Z := 10.
Definition CHALLENGE_CREATED : Z := 75.
Definition PERFECT_SUBMISSION : Z := 200.
End POINTS.

Module BADGES.
Definition FIRST_STEPS := "first_steps".
Definition EXPLORER := "explorer".
Definition ADVENTURER := "adventurer".
Definition MASTER_EXPLORER := "master_explorer".
Definition CULTURE_BUFF := "culture_buff".
Definition FOODIE := "foodie".
Definition PHOTOGRAPHER := "photographer".
Definition SOCIAL_BUTTERFLY := "social_butterfly".
Definition EARLY_BIRD := "early_bird".
Definition PERFECTIONIST := "perfectionist".
End BADGES.

(** [x || 0] on a field the interface [User] types as a number: a missing
    field and the number 0 both give 0. *)
Definition or_zero (v : option Val) : Z :=
  match v with
  | Some (VNum n) => n
  | _ => 0%Z
  end.

Definition awardPoints (userId : string) (points : Z) (reason : string) : M unit :=
  try_catch
    (user ← FirebaseService.getUser userId;
     match user with
     | None => throw (JsError "User not found")
     | Some user =>
         let currentPoints := or_zero (user !! "points") in
         let newPoints := (currentPoints + points)%Z in
         _ ← FirebaseService.updateUser userId
               {[ "points" := VNum newPoints;
                  "totalPoints" := VNum (or_zero (user !! "totalPoints") + points)%Z ]};
         _ ← CacheService.invalidateUserCache userId;
         CacheService.invalidateLeaderboardCache
     end)
    (λ error, throw error).

Definition is_approved (s : Submission) : bool :=
  bool_decide (s_status s = approved).

(** s.score >= 95, false when the score is undefined *)
Definition is_perfect (s : Submission) : bool :=
  match s_score s with
  | Some n => bool_decide (95 ≤ n)%Z
  | None => false
  end.

(** One of the six blocks
      if (cond && !earnedBadgeTypes.includes(badge)) {
        await FirebaseService.awardBadge(userId, badge);
        newBadges.push(badge);
      } *)
Definition grant_if (userId : string) (earnedBadgeTypes : list string)
    (cond : bool) (badge : string) (newBadges : list string) : M (list string) :=
  if cond && negb (bool_decide (badge ∈ earnedBadgeTypes))
  then _ ← FirebaseService.awardBadge userId badge None;
       mret (newBadges ++ [badge])
  else mret newBadges.

Definition checkAndAwardBadges (userId : string) : M (list string) :=
  try_catch
    (user ← FirebaseService.getUser userId;
     match user with
     | None => mret []
     | Some _ =>
         userBadges ← FirebaseService.getUserBadges userId;
         let earnedBadgeTypes := b_type <$> userBadges in
         let newBadges := [] in
         submissions ← FirebaseService.getUserSubmissions userId;
         let completedChallenges := length (filter is_approved submissions) in
         let approvedSubmissions := filter is_approved submissions in
         newBadges ← grant_if userId earnedBadgeTypes
           (bool_decide (1 ≤ completedChallenges)) BADGES.FIRST_STEPS newBadges;
         newBadges ← grant_if userId earnedBadgeTypes
           (bool_decide (5 ≤ completedChallenges)) BADGES.EXPLORER newBadges;
         newBadges ← grant_if userId earnedBadgeTypes
           (bool_decide (10 ≤ completedChallenges)) BADGES.ADVENTURER newBadges;
         newBadges ← grant_if userId earnedBadgeTypes
           (bool_decide (25 ≤ completedChallenges)) BADGES.MASTER_EXPLORER newBadges;
         newBadges ← grant_if userId earnedBadgeTypes
           (bool_decide (10 ≤ length approvedSubmissions)) BADGES.PHOTOGRAPHER newBadges;
         let perfectSubmissions := length (filter is_perfect approvedSubmissions) in
         newBadges ← grant_if userId earnedBadgeTypes
           (bool_decide (5 ≤ perfectSubmissions)) BADGES.PERFECTIONIST newBadges;
         _ ← (if bool_decide (0 < length newBadges)
              then CacheService.invalidateUserCache userId
              else mret tt);
         mret newBadges
     end)
    (λ _, mret []).

Definition processChallengeCompletion
    (userId challengeId submissionId : string) : M unit :=
  try_catch
    (_ ← awardPoints userId POINTS.CHALLENGE_COMPLETION "Challenge completion";
     submissions ← FirebaseService.getUserSubmissions userId;
     _ ← (if bool_decide (length submissions = 1)
          then awardPoints userId POINTS.FIRST_CHALLENGE "First challenge bonus"
          else mret tt);
     newBadges ← checkAndAwardBadges userId;
     _ ← for_each newBadges
           (λ badge, awardPoints userId 50 ("New badge earned: " +:+ badge));
     mret tt)
    (λ error, throw error).

(** The body is a placeholder that resolves with fixed values. *)
Definition getUserRank (userId : string) : M RankInfo :=
  try_catch
    (mret (mkRankInfo 1 100 99))
    (λ error, throw error).

(** [limit] defaults to 10.  A cached value is used when it is truthy;
    calling [slice] on a value that has none raises a TypeError. *)
Definition getLeaderboard (limit : option Z) : M (list Doc) :=
  let limit := default 10%Z limit in
  let miss : M (list Doc) :=
    let leaderboard := [] in
    _ ← CacheService.cacheLeaderboard "global" (CArr leaderboard);
    mret (slice0 limit leaderboard) in
  try_catch
    (cached ← CacheService.getCachedLeaderboard "global";
     match cached with
     | Some (CArr l) => mret (slice0 limit l)
     | Some (CObj _) => throw TypeError
     | Some (CNum n) => if bool_decide (n = 0%Z) then miss else throw TypeError
     | None => miss
     end)
    (λ _, mret []).

End GamificationService.

(** * Reasoning about promises *)

(** [wp m w Q]: running [m] from the world [w] ends in an outcome and a world
    that satisfy [Q]. *)
Definition wp {A} (m : M A) (w : World) (Q : Result A → World → Prop) : Prop :=
  Q (m w).1 (m w).2.

(** [quiet w w']: the three Firestore collections are the same in [w'] as in
    [w], and no rejection was scheduled in between if none was before. *)
Record quiet (w w' : World) : Prop := mkQuiet {
  q_users : users w' = users w;
  q_badges : badges w' = badges w;
  q_submissions : submissions w' = submissions w;
  q_faults : faults w = [] → faults w' = []
}.


(** The types of the badges a user holds, in store order. *)
Definition earned (w : World) (userId : string) : list string :=
  b_type <$> filter (λ b, b_userId b = userId) (badges w).

(** The six criteria as [checkAndAwardBadges] tests them on the submissions
    it has read, each with its badge. *)
Definition criteria_of (submissions : list Submission) : list (bool * string) :=
  let completedChallenges :=
    length (filter GamificationService.is_approved submissions) in
  let approvedSubmissions := filter GamificationService.is_approved submissions in
  let perfectSubmissions :=
    length (filter GamificationService.is_perfect approvedSubmissions) in
  [ (bool_decide (1 ≤ completedChallenges), GamificationService.BADGES.FIRST_STEPS);
    (bool_decide (5 ≤ completedChallenges), GamificationService.BADGES.EXPLORER);
    (bool_decide (10 ≤ completedChallenges), GamificationService.BADGES.ADVENTURER);
    (bool_decide (25 ≤ completedChallenges), GamificationService.BADGES.MASTER_EXPLORER);
    (bool_decide (10 ≤ length approvedSubmissions), GamificationService.BADGES.PHOTOGRAPHER);
    (bool_decide (5 ≤ perfectSubmissions), GamificationService.BADGES.PERFECTIONIST) ].

(** The user's submissions, in store order. *)
Definition submissions_of (w : World) (userId : string) : list Submission :=
  filter (λ s, s_userId s = userId) (submissions w).

Definition criteria (w : World) (userId : string) : list (bool * string) :=
  criteria_of (submissions_of w userId).

(** The badge blocks of [checkAndAwardBadges], run one after the other and
    followed by the rest of the body. *)
Fixpoint grant_all {B} (userId : string) (held : list string)
    (cs : list (bool * string)) (newBadges : list string)
    (rest : list string → M B) : M B :=
  match cs with
  | [] => rest newBadges
  | (cond, badge) :: cs' =>
      newBadges' ← GamificationService.grant_if userId held cond badge newBadges;
      grant_all userId held cs' newBadges' rest
  end.

(** A sequence of calls made by the API layer. *)
Inductive Call :=
  | Award (userId : string) (points : Z) (reason : string)
  | Evaluate (userId : string)
  | Complete (userId challengeId submissionId : string).

Definition run_call (c : Call) (w : World) : World :=
  match c with
  | Award u p r => (GamificationService.awardPoints u p r w).2
  | Evaluate u => (GamificationService.checkAndAwardBadges u w).2
  | Complete u c s => (GamificationService.processChallengeCompletion u c s w).2
  end.

Definition run_calls (cs : list Call) (w : World) : World :=
  foldl (λ w c, run_call c w) w cs.

(** The points given to [userId] by the [Award] calls of a sequence. *)
Fixpoint awarded_to (userId : string) (cs : list Call) : Z :=
  match cs with
  | [] => 0
  | Award u p _ :: cs' =>
      ((if bool_decide (u = userId) then p else 0) + awarded_to userId cs')%Z
  | _ :: cs' => awarded_to userId cs'
  end.

Definition totalPoints_of (w : World) (userId : string) : Z :=
  GamificationService.or_zero (users w !! userId ≫= (λ d : Doc, d !! "totalPoints")).

Definition points_of (w : World) (userId : string) : Z :=
  GamificationService.or_zero (users w !! userId ≫= (λ d : Doc, d !! "points")).


(** What the caller of an async function gets from [await]: a function
    declared [Promise<void>] resolves with [undefined]. *)
Inductive JsValue :=
  | undefined
  | number (n : Z).

Definition awaited_void (_ : unit) : JsValue := undefined.

(** ** Level derivation *)

(** Modelled from the spec: the repository has no function that derives a
    level from a point total (the [level] field is written once, as 1, at
    registration).  The specification describes it: the level is the largest
    L such that totalPoints >= threshold(L), over a configured table of
    thresholds, and a level is an integer >= 1.  [thresholds] lists
    threshold(1), threshold(2), ... *)
Fixpoint level_scan (thresholds : list Z) (L best : nat) (totalPoints : Z) : nat :=
  match thresholds with
  | [] => best
  | th :: rest =>
      level_scan rest (S L)
        (if bool_decide (th ≤ totalPoints)%Z then L else best) totalPoints
  end.

Definition level (thresholds : list Z) (totalPoints : Z) : nat :=
  level_scan thresholds 1 1 totalPoints.

(** A call that never throws and leaves Firestore alone. *)
Definition cache_like {A} (m : M A) : Prop :=
  ∀ w Q, (∀ a w', quiet w w' → Q (Ok a) w') → wp m w Q.

(** The user document after an award of [points] written at time [t]. *)
Definition awarded_doc (d : Doc) (points : Z) (t : nat) : Doc :=
  <["updatedAt" := VTime t]>
    {[ "points" := VNum (GamificationService.or_zero (d !! "points") + points)%Z;
       "totalPoints" :=
         VNum (GamificationService.or_zero (d !! "totalPoints") + points)%Z ]}
  ∪ d.

(** What one call of [checkAndAwardBadges] from [w] ends in: it resolves
    with the empty list and has changed no user document, badge or
    submission. *)
Definition evaluated (w : World) (r : Result (list string)) (w' : World) : Prop :=
  r = Ok [] ∧ quiet w w'.

(** ** The badge table, as the specification words it *)

Inductive Counter := CompletedChallenges | ApprovedSubmissions | PerfectSubmissions.

(** A submission is perfect when it has a score and the score is at least
    the cutoff. *)
Definition meets_cutoff (cutoff : Z) (s : Submission) : Prop :=
  match s_score s with
  | Some n => (cutoff ≤ n)%Z
  | None => False
  end.

Global Instance meets_cutoff_dec cutoff s : Decision (meets_cutoff cutoff s).
Proof. unfold meets_cutoff. destruct (s_score s); apply _. Defined.

Definition counter_value (w : World) (userId : string) (c : Counter) : nat :=
  let mine := filter (λ s, s_userId s = userId) (submissions w) in
  let approved_mine := filter (λ s, s_status s = approved) mine in
  match c with
  | CompletedChallenges => length approved_mine
  | ApprovedSubmissions => length approved_mine
  | PerfectSubmissions =>
      length (filter (meets_cutoff 95) approved_mine)
  end.

Definition badge_table : list (string * Counter * nat) :=
  [ ("first_steps", CompletedChallenges, 1);
    ("explorer", CompletedChallenges, 5);
    ("adventurer", CompletedChallenges, 10);
    ("master_explorer", CompletedChallenges, 25);
    ("photographer", ApprovedSubmissions, 10);
    ("perfectionist", PerfectSubmissions, 5) ].

(** The badges of the table whose threshold the user's counter has reached
    and that the user has not been granted. *)
Definition newly_due (w : World) (userId : string) : list string :=
  (λ e, e.1.1) <$>
    filter (λ e, e.2 ≤ counter_value w userId e.1.2 ∧ e.1.1 ∉ earned w userId)
      badge_table.

(** ** Worlds used in the examples *)

(** A user as registration leaves it: 0 points, level 1, no total yet. *)
Definition registered : Doc :=
  {[ "points" := VNum 0; "level" := VNum 1; "role" := VStr "citizen" ]}.

Definition approved_submission (t : nat) : Submission :=
  mkSubmission "u1" "c1" approved (Some 96%Z) t.

(** One registered user with five approved submissions, no badge yet, the
    cache configured and empty, no rejection scheduled. *)
Definition world_u1 : World :=
  mkWorld {[ "u1" := registered ]} [] (approved_submission <$> seq 0 5)
          (Some ∅) 0 [].

(** A user who has 40 points to spend and 70 points in total. *)
Definition scored : Doc :=
  {[ "points" := VNum 40; "totalPoints" := VNum 70; "level" := VNum 2;
     "role" := VStr "citizen" ]}.

Definition world_scored : World :=
  mkWorld {[ "u1" := scored; "u2" := registered ]} [] [] (Some ∅) 3 [].

(** One registered user whose only submission is still pending. *)
Definition world_first : World :=
  mkWorld {[ "u1" := registered ]} []
          [mkSubmission "u1" "c1" pending None 0] (Some ∅) 1 [].

(** No user at all. *)
Definition world_empty : World := mkWorld ∅ [] [] (Some ∅) 0 [].

(** The calls the sequence properties exclude or allow. *)
Definition is_complete (c : Call) : Prop :=
  match c with
  | Complete _ _ _ => True
  | _ => False
  end.

(** [advanced userId p w w']: from [w] to [w'] the user's [points] and
    [totalPoints] grew by [p] and nothing else in Firestore changed. *)
Definition advanced (userId : string) (p : Z) (w w' : World) : Prop :=
  submissions w' = submissions w ∧
  badges w' = badges w ∧
  (∀ u, u ≠ userId → users w' !! u = users w !! u) ∧
  (is_Some (users w' !! userId) ↔ is_Some (users w !! userId)) ∧
  totalPoints_of w' userId = (totalPoints_of w userId + p)%Z ∧
  points_of w' userId = (points_of w userId + p)%Z ∧
  (faults w = [] → faults w' = []).

(** A call for [userId] from [w] has a reason to fail: a rejection is
    scheduled or the user does not exist. *)
Definition troubled (userId : string) (w : World) : Prop :=
  ¬ (faults w = [] ∧ is_Some (users w !! userId)).

(** The bonus for a user whose only submission this is. *)
Definition first_bonus (w : World) (userId : string) : Z :=
  if bool_decide (length (submissions_of w userId) = 1)
  then GamificationService.POINTS.FIRST_CHALLENGE else 0%Z.

(** What one call of [processChallengeCompletion] from [w] can end in. *)
Definition completed (userId : string) (w : World)
    (r : Result unit) (w' : World) : Prop :=
  ∃ p,
    advanced userId p w w' ∧
    (faults w = [] → is_Some (users w !! userId) →
       r = Ok tt ∧
       p = (GamificationService.POINTS.CHALLENGE_COMPLETION
            + first_bonus w userId)%Z) ∧
    (users w !! userId = None →
       p = 0%Z ∧
       ∃ e, r = Throw e ∧ (faults w = [] → e = JsError "User not found")).

(** The cache without the keys that start with [prefix]. *)
Definition purge (prefix : string) (m : gmap string CacheVal) : gmap string CacheVal :=
  foldr delete m (CacheService.keys_matching prefix m).

(** The world after a successful [awardPoints] in which no remote call was
    rejected: the clock has ticked once, the user's document is the awarded
    one, the user's cache entries and every leaderboard entry are gone. *)
Definition awarded_world (userId : string) (d : Doc) (points : Z) (w : World) : World :=
  set_redis (purge "leaderboard:")
    (set_redis (purge ("user:" +:+ userId +:+ ":"))
       (set_redis (delete ("user:" +:+ userId))
          (set_users (insert userId (awarded_doc d points (clock w)))
             (set_clock (S (clock w)) w)))).

(** The cache keys an award to [userId] invalidates. *)
Definition invalidated_by_award (userId : string) (k : string) : bool :=
  bool_decide (k = "user:" +:+ userId)
  || String.prefix ("user:" +:+ userId +:+ ":") k
  || String.prefix "leaderboard:" k.

(** The badges of the catalogue that [checkAndAwardBadges] has no block for. *)
Definition never_evaluated : list string :=
  [ GamificationService.BADGES.CULTURE_BUFF;
    GamificationService.BADGES.FOODIE;
    GamificationService.BADGES.SOCIAL_BUTTERFLY;
    GamificationService.BADGES.EARLY_BIRD ].

(** A world in which the cache holds a leaderboard and entries of two users. *)
Definition world_cached : World :=
  mkWorld {[ "u1" := registered; "u2" := registered ]} []
          (approved_submission <$> seq 0 5)
          (Some {[ "leaderboard:global" := CArr [registered; registered; registered];
                   "user:u1" := CObj registered;
                   "user:u1:stats" := CNum 3;
                   "user:u2" := CObj registered;
                   "hits" := CNum 4 ]})
          7 [].


(** A cache call that resolves whatever is rejected and leaves Firestore
    alone. *)
Definition resolves_quietly {A} (m : M A) : Prop :=
  ∀ w, ∃ a, (m w).1 = Ok a ∧ quiet w (m w).2.

(** The key under which [getLeaderboard] caches the global leaderboard. *)
Definition leaderboard_key : string := "leaderboard:" +:+ "global".

(** * Rules for the monad *)

Section wp_rules.
Context {A B : Type}.
Implicit Types (w : World).

Lemma wp_ret (a : A) w Q : Q (Ok a) w → wp (mret a) w Q.
Proof. done. Qed.

Lemma wp_throw e w (Q : Result A → World → Prop) :
  Q (Throw e) w → wp (throw e) w Q.
Proof. done. Qed.

Lemma wp_bind (m : M A) (f : A → M B) w Q :
  wp m w (λ r w', match r with
                  | Ok a => wp (f a) w' Q
                  | Throw e => Q (Throw e) w'
                  end) →
  wp (m ≫= f) w Q.
Proof.
  unfold wp, mbind, M_bind. by destruct (m w) as [[a|e] w'].
Qed.

Lemma wp_try (m : M A) (h : Error → M A) w Q :
  wp m w (λ r w', match r with
                  | Ok a => Q (Ok a) w'
                  | Throw e => wp (h e) w' Q
                  end) →
  wp (try_catch m h) w Q.
Proof.
  unfold wp, try_catch. by destruct (m w) as [[a|e] w'].
Qed.

Lemma wp_mono (m : M A) w (Q Q' : Result A → World → Prop) :
  wp m w Q → (∀ r w', Q r w' → Q' r w') → wp m w Q'.
Proof. unfold wp. auto. Qed.
End wp_rules.

Lemma wp_get_world w Q : Q (Ok w) w → wp get_world w Q.
Proof. done. Qed.

Lemma wp_modify f w Q : Q (Ok tt) (f w) → wp (modify f) w Q.
Proof. done. Qed.

Lemma wp_now w Q : Q (Ok (clock w)) (set_clock (S (clock w)) w) → wp now w Q.
Proof. done. Qed.

Lemma wp_attempt_exact w Q :
  match faults w with
  | true :: fl => Q (Throw Rejected) (set_faults fl w)
  | false :: fl => Q (Ok tt) (set_faults fl w)
  | [] => Q (Ok tt) w
  end →
  wp attempt w Q.
Proof. unfold wp, attempt. by destruct (faults w) as [|[] fl]. Qed.

Lemma quiet_refl w : quiet w w.
Proof. by split. Qed.

Lemma quiet_trans w1 w2 w3 : quiet w1 w2 → quiet w2 w3 → quiet w1 w3.
Proof.
  intros [] []. split; try congruence. auto.
Qed.

Lemma quiet_set_faults w fl : (faults w = [] → fl = []) → quiet w (set_faults fl w).
Proof. by split. Qed.

Lemma quiet_set_clock w c : quiet w (set_clock c w).
Proof. by split. Qed.

Lemma quiet_set_redis w f : quiet w (set_redis f w).
Proof. by split. Qed.

Lemma wp_attempt w Q :
  (∀ w', quiet w w' → Q (Ok tt) w') →
  (∀ w', quiet w w' → faults w ≠ [] → Q (Throw Rejected) w') →
  wp attempt w Q.
Proof.
  intros HOk HThrow. apply wp_attempt_exact.
  destruct (faults w) as [|[] fl] eqn:E.
  - apply HOk, quiet_refl.
  - apply HThrow; [|congruence]. apply quiet_set_faults. congruence.
  - apply HOk. apply quiet_set_faults. congruence.
Qed.

(** ** Single runs *)

Lemma run_eq {A} (m : M A) w : m w = ((m w).1, (m w).2).
Proof. by destruct (m w). Qed.

Lemma bind_run {A B} (m : M A) (f : A → M B) w a w' :
  m w = (Ok a, w') → (m ≫= f) w = f a w'.
Proof. intros Hm. unfold mbind, M_bind. by rewrite Hm. Qed.


Lemma try_run {A} (m : M A) (h : Error → M A) w a w' :
  m w = (Ok a, w') → try_catch m h w = (Ok a, w').
Proof. intros Hm. unfold try_catch. by rewrite Hm. Qed.


(** * FirebaseService: what each call does to the world *)

Ltac wp_step :=
  lazymatch goal with
  | |- wp (mbind _ _) _ _ => apply wp_bind
  | |- wp (try_catch _ _) _ _ => apply wp_try
  | |- wp (mret _) _ _ => apply wp_ret
  | |- wp (throw _) _ _ => apply wp_throw
  | |- wp get_world _ _ => apply wp_get_world
  | |- wp (modify _) _ _ => apply wp_modify
  | |- wp now _ _ => apply wp_now
  end;
  lazy beta iota.

Lemma wp_getUser userId w Q :
  (∀ w', quiet w w' →
     Q (Ok ((λ d : Doc, d ∪ {[ "id" := VStr userId ]}) <$> users w !! userId)) w') →
  (∀ w', quiet w w' → faults w ≠ [] → Q (Throw Rejected) w') →
  wp (FirebaseService.getUser userId) w Q.
Proof.
  intros HOk HThrow. unfold FirebaseService.getUser.
  wp_step. apply wp_attempt; [|done].
  intros w' Hq. do 2 wp_step. rewrite (q_users _ _ Hq). by apply HOk.
Qed.

Lemma wp_getUserBadges userId w Q :
  (∀ w', quiet w w' →
     Q (Ok (orderBy_desc b_createdAt
              (filter (λ b, b_userId b = userId) (badges w)))) w') →
  (∀ w', quiet w w' → faults w ≠ [] → Q (Throw Rejected) w') →
  wp (FirebaseService.getUserBadges userId) w Q.
Proof.
  intros HOk HThrow. unfold FirebaseService.getUserBadges.
  wp_step. apply wp_attempt; [|done].
  intros w' Hq. do 2 wp_step. rewrite (q_badges _ _ Hq). by apply HOk.
Qed.

Lemma wp_getUserSubmissions userId w Q :
  (∀ w', quiet w w' →
     Q (Ok (orderBy_desc s_createdAt
              (filter (λ s, s_userId s = userId) (submissions w)))) w') →
  (∀ w', quiet w w' → faults w ≠ [] → Q (Throw Rejected) w') →
  wp (FirebaseService.getUserSubmissions userId) w Q.
Proof.
  intros HOk HThrow. unfold FirebaseService.getUserSubmissions.
  wp_step. apply wp_attempt; [|done].
  intros w' Hq. do 2 wp_step. rewrite (q_submissions _ _ Hq). by apply HOk.
Qed.

Lemma wp_updateUser userId updates w Q :
  (∀ w' d,
     users w !! userId = Some d →
     users w' = <[userId := <["updatedAt" := VTime (clock w)]> updates ∪ d]> (users w) →
     badges w' = badges w →
     submissions w' = submissions w →
     (faults w = [] → faults w' = []) →
     Q (Ok tt) w') →
  (∀ w' e, quiet w w' → (faults w = [] → users w !! userId = None) →
     Q (Throw e) w') →
  wp (FirebaseService.updateUser userId updates) w Q.
Proof.
  intros HOk HThrow. unfold FirebaseService.updateUser.
  do 2 wp_step. wp_step. apply wp_attempt.
  - intros w' Hq. do 2 wp_step.
    destruct (users w' !! userId) as [d|] eqn:E.
    + wp_step. destruct Hq as [Hu Hb Hs Hf]. simpl in *.
      apply (HOk _ d); simpl; try congruence. done.
    + wp_step. apply HThrow.
      * eapply quiet_trans; [apply quiet_set_clock|done].
      * intros _. destruct Hq as [Hu _ _ _]. simpl in Hu. congruence.
  - intros w' Hq Hf. apply HThrow; [|done].
    eapply quiet_trans; [apply quiet_set_clock|done].
Qed.

Lemma wp_awardBadge_undefined userId badgeType w Q :
  (∀ e w', quiet w w' → Q (Throw e) w') →
  wp (FirebaseService.awardBadge userId badgeType None) w Q.
Proof.
  intros HThrow. unfold FirebaseService.awardBadge, FirebaseService.createBadge.
  do 2 wp_step. wp_step. apply HThrow, quiet_set_clock.
Qed.

(** * CacheService: no call ever throws, none touches Firestore *)

Lemma cache_like_guarded {A} (body : gmap string CacheVal → M A) (dflt : A) :
  (∀ m w Q,
     (∀ a w', quiet w w' → Q (Ok a) w') →
     (∀ e w', quiet w w' → Q (Throw e) w') →
     wp (body m) w Q) →
  cache_like (w ← get_world;
              match redis w with
              | None => mret dflt
              | Some m => try_catch (body m) (λ _, mret dflt)
              end).
Proof.
  intros Hbody w Q HQ. do 2 wp_step.
  destruct (redis w) as [m|]; [|wp_step; apply HQ, quiet_refl].
  wp_step. apply Hbody; [done|].
  intros e w' Hq. wp_step. by apply HQ.
Qed.

Lemma cache_like_get key : cache_like (CacheService.get key).
Proof.
  apply (cache_like_guarded (λ _, _)). intros _ w Q HOk HThrow.
  wp_step. apply wp_attempt; [|by intros; apply HThrow].
  intros w' Hq. do 2 wp_step. by apply HOk.
Qed.

Lemma cache_like_set key value : cache_like (CacheService.set key value).
Proof.
  apply (cache_like_guarded (λ _, _)). intros _ w Q HOk HThrow.
  wp_step. apply wp_attempt; [|by intros; apply HThrow].
  intros w' Hq. wp_step. apply HOk.
  eapply quiet_trans; [done|apply quiet_set_redis].
Qed.

Lemma cache_like_del key : cache_like (CacheService.del key).
Proof.
  apply (cache_like_guarded (λ _, _)). intros _ w Q HOk HThrow.
  wp_step. apply wp_attempt; [|by intros; apply HThrow].
  intros w' Hq. wp_step. apply HOk.
  eapply quiet_trans; [done|apply quiet_set_redis].
Qed.

Lemma cache_like_delPattern prefix : cache_like (CacheService.delPattern prefix).
Proof.
  apply (cache_like_guarded (λ m, _)). intros m w Q HOk HThrow.
  wp_step. apply wp_attempt; [|by intros; apply HThrow].
  intros w' Hq. case_bool_decide.
  - wp_step. apply wp_attempt.
    + intros w'' Hq'. wp_step. apply HOk.
      eapply quiet_trans; [done|]. eapply quiet_trans; [done|apply quiet_set_redis].
    + intros w'' Hq' _. apply HThrow. by eapply quiet_trans.
  - wp_step. by apply HOk.
Qed.

Lemma cache_like_bind {A B} (m : M A) (f : A → M B) :
  cache_like m → (∀ a, cache_like (f a)) → cache_like (m ≫= f).
Proof.
  intros Hm Hf w Q HQ. wp_step. apply Hm. intros a w' Hq.
  apply Hf. intros b w'' Hq'. apply HQ. by eapply quiet_trans.
Qed.

Lemma cache_like_invalidateUserCache userId :
  cache_like (CacheService.invalidateUserCache userId).
Proof.
  apply cache_like_bind; [apply cache_like_del|].
  intros _. apply cache_like_delPattern.
Qed.

Lemma cache_like_invalidateLeaderboardCache :
  cache_like CacheService.invalidateLeaderboardCache.
Proof. apply cache_like_delPattern. Qed.

Lemma cache_like_cacheLeaderboard type data :
  cache_like (CacheService.cacheLeaderboard type data).
Proof. apply cache_like_set. Qed.

Lemma cache_like_getCachedLeaderboard type :
  cache_like (CacheService.getCachedLeaderboard type).
Proof. apply cache_like_get. Qed.

(** * GamificationService.awardPoints *)

Lemma lookup_with_id (d : Doc) (userId k : string) :
  k ≠ "id" → (d ∪ {[ "id" := VStr userId ]}) !! k = d !! k.
Proof.
  intros Hk. rewrite lookup_union, lookup_singleton_ne by done.
  by destruct (d !! k).
Qed.

Lemma wp_awardPoints userId points reason w Q :
  (∀ w' d t,
     users w !! userId = Some d →
     users w' = <[userId := awarded_doc d points t]> (users w) →
     badges w' = badges w →
     submissions w' = submissions w →
     (faults w = [] → faults w' = []) →
     Q (Ok tt) w') →
  (∀ w' e, quiet w w' →
     (faults w = [] → users w !! userId = None ∧ e = JsError "User not found") →
     Q (Throw e) w') →
  wp (GamificationService.awardPoints userId points reason) w Q.
Proof.
  intros HOk HThrow. unfold GamificationService.awardPoints.
  wp_step. wp_step. apply wp_getUser.
  - intros w1 Hq1. destruct (users w !! userId) as [d|] eqn:Hd; simpl.
    + wp_step. rewrite !lookup_with_id by done.
      apply wp_updateUser.
      * intros w2 d' Hd' Hu2 Hb2 Hs2 Hf2. wp_step.
        apply cache_like_invalidateUserCache. intros _ w3 Hq3.
        apply cache_like_invalidateLeaderboardCache. intros [] w4 Hq4.
        destruct Hq1 as [Hu1 Hb1 Hs1 Hf1], Hq3 as [Hu3 Hb3 Hs3 Hf3],
          Hq4 as [Hu4 Hb4 Hs4 Hf4].
        assert (d' = d) as -> by congruence.
        apply (HOk _ d (clock w1)); [done|unfold awarded_doc|..]; try congruence.
        auto.
      * intros w2 e Hq2 He. wp_step. apply HThrow.
        -- by eapply quiet_trans.
        -- intros Hf. destruct Hq1 as [Hu1 _ _ Hf1].
           specialize (He (Hf1 Hf)). congruence.
    + do 2 wp_step. apply HThrow; [done|]. done.
  - intros w1 Hq1 Hf. wp_step. apply HThrow; [done|]. done.
Qed.

(** * GamificationService.checkAndAwardBadges *)

Lemma orderBy_desc_perm {A} (key : A → nat) (l : list A) : orderBy_desc key l ≡ₚ l.
Proof. apply merge_sort_Permutation. Qed.

(** Either no block fires, or the first one that does is stopped by the
    rejected badge write. *)
Lemma wp_grant_all {B} userId held cs :
  ∀ newBadges (rest : list string → M B) w Q,
    wp (rest newBadges) w Q →
    (∀ e w', quiet w w' → Q (Throw e) w') →
    wp (grant_all userId held cs newBadges rest) w Q.
Proof.
  induction cs as [|[c b] cs IH]; intros nb rest w Q HOk HThrow; simpl; [done|].
  wp_step. unfold GamificationService.grant_if.
  destruct (c && negb (bool_decide (b ∈ held))).
  - wp_step. apply wp_awardBadge_undefined. intros e w' Hq. by apply HThrow.
  - wp_step. by apply IH.
Qed.

Lemma checkAndAwardBadges_unfold userId :
  GamificationService.checkAndAwardBadges userId =
  try_catch
    (user ← FirebaseService.getUser userId;
     match user with
     | None => mret []
     | Some _ =>
         userBadges ← FirebaseService.getUserBadges userId;
         submissions ← FirebaseService.getUserSubmissions userId;
         grant_all userId (b_type <$> userBadges) (criteria_of submissions) []
           (λ newBadges,
              _ ← (if bool_decide (0 < length newBadges)
                   then CacheService.invalidateUserCache userId
                   else mret tt);
              mret newBadges)
     end)
    (λ _, mret []).
Proof. reflexivity. Qed.

Local Opaque grant_all criteria_of.

Lemma wp_checkAndAwardBadges userId w :
  wp (GamificationService.checkAndAwardBadges userId) w (evaluated w).
Proof.
  rewrite checkAndAwardBadges_unfold.
  assert (∀ w', quiet w w' → wp (mret []) w' (evaluated w)) as Hcaught
    by (intros w' Hq; by wp_step).
  wp_step. wp_step. apply wp_getUser.
  - intros w1 Hq1. destruct (users w !! userId) as [d|]; simpl.
    + wp_step. apply wp_getUserBadges.
      * intros w2 Hq2. wp_step. apply wp_getUserSubmissions.
        -- intros w3 Hq3.
           assert (quiet w w3) as Hq by eauto using quiet_trans.
           apply wp_grant_all.
           ++ wp_step. rewrite bool_decide_eq_false_2 by (simpl; lia).
              do 2 wp_step. by split.
           ++ intros e w4 Hq4. apply Hcaught. by eapply quiet_trans.
        -- intros w3 Hq3 _. apply Hcaught. eauto using quiet_trans.
      * intros w2 Hq2 _. apply Hcaught. eauto using quiet_trans.
    + wp_step. by split.
  - intros w1 Hq1 _. by apply Hcaught.
Qed.

Local Transparent grant_all criteria_of.

(** * Points *)

Lemma awarded_doc_points d p t :
  awarded_doc d p t !! "points"
  = Some (VNum (GamificationService.or_zero (d !! "points") + p)).
Proof. unfold awarded_doc. by simplify_map_eq. Qed.

Lemma awarded_doc_totalPoints d p t :
  awarded_doc d p t !! "totalPoints"
  = Some (VNum (GamificationService.or_zero (d !! "totalPoints") + p)).
Proof. unfold awarded_doc. by simplify_map_eq. Qed.

Lemma awarded_doc_updatedAt d p t :
  awarded_doc d p t !! "updatedAt" = Some (VTime t).
Proof. unfold awarded_doc. by simplify_map_eq. Qed.

Lemma awarded_doc_other d p t k :
  k ≠ "points" → k ≠ "totalPoints" → k ≠ "updatedAt" →
  awarded_doc d p t !! k = d !! k.
Proof.
  intros. unfold awarded_doc.
  rewrite lookup_union, !lookup_insert_ne, lookup_singleton_ne by done.
  by destruct (d !! k).
Qed.

(** What a successful award does, and that an award can only fail without
    touching Firestore. *)
Lemma awardPoints_outcome userId points reason w :
  wp (GamificationService.awardPoints userId points reason) w (λ r w',
    (r = Ok tt ∧
     (∃ d t, users w !! userId = Some d ∧
             users w' = <[userId := awarded_doc d points t]> (users w)) ∧
     badges w' = badges w ∧ submissions w' = submissions w ∧
     (faults w = [] → faults w' = []))
    ∨
    (∃ e, r = Throw e ∧ quiet w w' ∧
          (faults w = [] → users w !! userId = None ∧ e = JsError "User not found"))).
Proof.
  apply wp_awardPoints.
  - intros w' d t Hd Hu Hb Hs Hf. left. split; [done|]. split_and!; eauto.
  - intros w' e Hq He. right. exists e. split_and!; eauto.
Qed.

(** C10.  A successful [awardPoints] increments the user's [points] field
    and the user's [totalPoints] field by the same amount, [points]: a field
    that held the number n holds n + points afterwards, and a field that was
    missing holds [points].  Every field of the user other than these two
    and [updatedAt] is left as it was. *)
Theorem awardPoints_frame userId points reason w w' d :
  users w !! userId = Some d →
  GamificationService.awardPoints userId points reason w = (Ok tt, w') →
  ∃ d',
    users w' !! userId = Some d' ∧
    (∀ n, d !! "points" = Some (VNum n) →
          d' !! "points" = Some (VNum (n + points))) ∧
    (d !! "points" = None → d' !! "points" = Some (VNum points)) ∧
    (∀ n, d !! "totalPoints" = Some (VNum n) →
          d' !! "totalPoints" = Some (VNum (n + points))) ∧
    (d !! "totalPoints" = None → d' !! "totalPoints" = Some (VNum points)) ∧
    (∀ k, k ≠ "points" → k ≠ "totalPoints" → k ≠ "updatedAt" →
          d' !! k = d !! k).
Proof.
  intros Hd Hrun.
  pose proof (awardPoints_outcome userId points reason w) as H.
  unfold wp in H. rewrite Hrun in H. simpl in H.
  destruct H as [(_ & (d0 & t & Hd0 & Hu) & _)|(e & He & _)]; [|done].
  assert (d0 = d) as -> by congruence.
  exists (awarded_doc d points t). split_and!.
  - by rewrite Hu, lookup_insert_eq.
  - intros n Hn. by rewrite awarded_doc_points, Hn.
  - intros Hn. by rewrite awarded_doc_points, Hn.
  - intros n Hn. by rewrite awarded_doc_totalPoints, Hn.
  - intros Hn. by rewrite awarded_doc_totalPoints, Hn.
  - apply awarded_doc_other.
Qed.

Lemma awardPoints_frame_witness :
  ∃ d',
    users (GamificationService.awardPoints "u1" 100 "challenge" world_scored).2 !! "u1"
      = Some d' ∧
    (∀ n, scored !! "points" = Some (VNum n) →
          d' !! "points" = Some (VNum (n + 100))) ∧
    (scored !! "points" = None → d' !! "points" = Some (VNum 100)) ∧
    (∀ n, scored !! "totalPoints" = Some (VNum n) →
          d' !! "totalPoints" = Some (VNum (n + 100))) ∧
    (scored !! "totalPoints" = None → d' !! "totalPoints" = Some (VNum 100)) ∧
    (∀ k, k ≠ "points" → k ≠ "totalPoints" → k ≠ "updatedAt" →
          d' !! k = scored !! k).
Proof.
  apply (awardPoints_frame "u1" 100 "challenge" world_scored).
  - reflexivity.
  - rewrite run_eq. f_equal.
Defined.

(** From 40 points and a total of 70, an award of 100 gives 140 and 170;
    for a user with 0 points and no total it gives 100 and 100. *)
Example awardPoints_scored :
  (∀ d', users (GamificationService.awardPoints "u1" 100 "challenge" world_scored).2
           !! "u1" = Some d' →
         d' !! "points" = Some (VNum 140) ∧ d' !! "totalPoints" = Some (VNum 170) ∧
         d' !! "level" = Some (VNum 2)) ∧
  (∀ d', users (GamificationService.awardPoints "u1" 100 "challenge" world_u1).2
           !! "u1" = Some d' →
         d' !! "points" = Some (VNum 100) ∧ d' !! "totalPoints" = Some (VNum 100)).
Proof.
  split; intros d' Hd'; vm_compute in Hd'; injection Hd' as <-; split_and!; reflexivity.
Qed.

(** C6.  When [userId] names no user, [awardPoints] rejects and leaves both
    stores and the clock as they were; the error is "User not found" unless
    the lookup itself was rejected by Firestore. *)
Theorem awardPoints_unknown_user userId points reason w :
  users w !! userId = None →
  ∃ e,
    GamificationService.awardPoints userId points reason w
      = (Throw e, set_faults (tail (faults w)) w) ∧
    (head (faults w) ≠ Some true → e = JsError "User not found").
Proof.
  intros Hnone.
  unfold GamificationService.awardPoints, FirebaseService.getUser, try_catch,
    mbind, M_bind, attempt, get_world, throw, mret, M_ret.
  destruct w as [us bs ss rd ck fl]. simpl in *.
  destruct fl as [|[] fl]; simpl; rewrite ?Hnone; simpl; eauto.
  eexists. split; [done|]. done.
Qed.

Lemma awardPoints_unknown_user_witness :
  ∃ e,
    GamificationService.awardPoints "ghost" 100 "challenge" world_empty
      = (Throw e, set_faults (tail (faults world_empty)) world_empty) ∧
    (head (faults world_empty) ≠ Some true → e = JsError "User not found").
Proof.
  apply (awardPoints_unknown_user "ghost" 100 "challenge" world_empty).
  reflexivity.
Defined.

Lemma evaluate_outcome userId w :
  evaluated w
    (GamificationService.checkAndAwardBadges userId w).1
    (GamificationService.checkAndAwardBadges userId w).2.
Proof. apply wp_checkAndAwardBadges. Qed.

Lemma totalPoints_of_insert w w' userId u d p t :
  users w !! u = Some d →
  users w' = <[u := awarded_doc d p t]> (users w) →
  totalPoints_of w' userId
  = (totalPoints_of w userId + (if bool_decide (u = userId) then p else 0))%Z.
Proof.
  intros Hd Hu. unfold totalPoints_of. rewrite Hu. case_bool_decide as Heq.
  - subst u. rewrite lookup_insert_eq, Hd. simpl.
    by rewrite awarded_doc_totalPoints.
  - rewrite lookup_insert_ne by done. lia.
Qed.

Lemma run_call_total userId c w :
  ¬ is_complete c →
  faults w = [] →
  is_Some (users w !! userId) →
  faults (run_call c w) = [] ∧
  is_Some (users (run_call c w) !! userId) ∧
  totalPoints_of (run_call c w) userId
  = (totalPoints_of w userId + awarded_to userId [c])%Z.
Proof.
  intros Hc Hf Hex. destruct c as [u p r|u|u ch s]; simpl in *; [| |done].
  - pose proof (awardPoints_outcome u p r w) as H. unfold wp in H.
    destruct H as [(_ & (d & t & Hd & Hu) & _ & _ & Hf')|(e & _ & Hq & He)].
    + split; [auto|]. split.
      * rewrite Hu. destruct (decide (u = userId)) as [->|Hne].
        -- rewrite lookup_insert_eq. eauto.
        -- by rewrite lookup_insert_ne.
      * rewrite (totalPoints_of_insert _ _ _ _ _ _ _ Hd Hu).
        simpl. lia.
    + destruct Hq as [Hu _ _ Hf']. destruct (He Hf) as [Hnone _].
      unfold totalPoints_of. rewrite Hu.
      split; [auto|]. split; [done|].
      simpl. case_bool_decide as Heq; [|lia]. subst u.
      destruct Hex as [? ?]. congruence.
  - destruct (evaluate_outcome u w) as (_ & [Hu _ _ Hf']).
    unfold totalPoints_of. rewrite Hu. split; [auto|]. split; [done|].
    simpl. lia.
Qed.

Lemma run_calls_total userId cs :
  ∀ w,
    Forall (λ c, ¬ is_complete c) cs →
    faults w = [] →
    is_Some (users w !! userId) →
    totalPoints_of (run_calls cs w) userId
    = (totalPoints_of w userId + awarded_to userId cs)%Z.
Proof.
  induction cs as [|c cs IH]; intros w Hcs Hf Hex; simpl.
  - unfold run_calls. simpl. lia.
  - apply Forall_cons in Hcs as [Hc Hcs].
    destruct (run_call_total userId c w Hc Hf Hex) as (Hf' & Hex' & Ht).
    unfold run_calls in *. simpl. rewrite IH by done. rewrite Ht.
    destruct c as [u p r|u|u ch s]; simpl; lia.
Qed.

(** C1, as the specification states it, fails on the code: [awardPoints]
    is declared [Promise<void>], so a caller awaiting it gets [undefined]
    and not the new total. *)
Lemma awardPoints_returns_no_total :
  ¬ ∃ r w',
      GamificationService.awardPoints "u1" 100 "challenge" world_u1 = (Ok r, w') ∧
      awaited_void r = number (totalPoints_of world_u1 "u1" + 100).
Proof. intros (r & w' & _ & Hr). discriminate Hr. Qed.

(** C1, amended.  For an existing user and any integer [points], when no
    remote call is rejected, [awardPoints] resolves (with no value) and the
    stored [totalPoints] has grown by exactly [points], a missing total
    counting as 0.  After any sequence of [awardPoints] calls, for this and
    for other users and interleaved with badge evaluations, the user's
    [totalPoints] is its value before the sequence plus the sum of the
    points awarded to that user. *)
Theorem awardPoints_total userId cs w :
  faults w = [] →
  is_Some (users w !! userId) →
  Forall (λ c, ¬ is_complete c) cs →
  (∀ points reason,
     ∃ w', GamificationService.awardPoints userId points reason w = (Ok tt, w') ∧
           totalPoints_of w' userId = (totalPoints_of w userId + points)%Z) ∧
  totalPoints_of (run_calls cs w) userId
  = (totalPoints_of w userId + awarded_to userId cs)%Z.
Proof.
  intros Hf Hex Hcs. split; [|by apply run_calls_total].
  intros points reason.
  pose proof (awardPoints_outcome userId points reason w) as H. unfold wp in H.
  rewrite (run_eq (GamificationService.awardPoints userId points reason) w).
  destruct H as [(Hr & (d & t & Hd & Hu) & _)|(e & _ & _ & He)].
  - eexists. split; [by rewrite Hr|].
    rewrite (totalPoints_of_insert _ _ _ _ _ _ _ Hd Hu).
    by rewrite bool_decide_eq_true_2.
  - destruct (He Hf) as [Hnone _]. destruct Hex as [? ?]. congruence.
Qed.

Lemma awardPoints_total_witness :
  (∀ points reason,
     ∃ w', GamificationService.awardPoints "u1" points reason world_u1 = (Ok tt, w') ∧
           totalPoints_of w' "u1" = (totalPoints_of world_u1 "u1" + points)%Z) ∧
  totalPoints_of
    (run_calls [Award "u1" 100 "challenge"; Evaluate "u1"; Award "u2" 7 "login";
                Award "u1" 50 "badge"] world_u1) "u1"
  = (totalPoints_of world_u1 "u1"
     + awarded_to "u1" [Award "u1" 100 "challenge"; Evaluate "u1";
                        Award "u2" 7 "login"; Award "u1" 50 "badge"])%Z.
Proof.
  apply (awardPoints_total "u1" _ world_u1).
  - reflexivity.
  - eexists. reflexivity.
  - repeat constructor; simpl; tauto.
Defined.

(** * Ranking *)

(** C7, as the specification states it, fails on the code: for a user that
    does not exist [getUserRank] resolves with a rank. *)
Lemma getUserRank_unknown_user_is_ranked :
  GamificationService.getUserRank "ghost" world_empty
  = (Ok (mkRankInfo 1 100 99), world_empty) ∧
  users world_empty !! "ghost" = None.
Proof. split; reflexivity. Qed.

(** C7, amended.  [getUserRank] is a placeholder: for every user id, known
    or not, and in every world it resolves with rank 1 of 100 users,
    percentile 99, and changes nothing; it never fails. *)
Theorem getUserRank_placeholder userId w :
  GamificationService.getUserRank userId w = (Ok (mkRankInfo 1 100 99), w).
Proof. reflexivity. Qed.

(** * Badges *)

(** C9.  For a [userId] that names no user, [checkAndAwardBadges] resolves
    with the empty list, whatever Firestore does, and grants nothing: the
    three collections are unchanged. *)
Theorem checkAndAwardBadges_unknown_user userId w :
  users w !! userId = None →
  (GamificationService.checkAndAwardBadges userId w).1 = Ok [] ∧
  users (GamificationService.checkAndAwardBadges userId w).2 = users w ∧
  badges (GamificationService.checkAndAwardBadges userId w).2 = badges w ∧
  submissions (GamificationService.checkAndAwardBadges userId w).2 = submissions w.
Proof.
  intros _. by destruct (evaluate_outcome userId w) as (Hr & [Hu Hb Hs _]).
Qed.

Lemma checkAndAwardBadges_unknown_user_witness :
  (GamificationService.checkAndAwardBadges "ghost" world_u1).1 = Ok [] ∧
  users (GamificationService.checkAndAwardBadges "ghost" world_u1).2
    = users world_u1 ∧
  badges (GamificationService.checkAndAwardBadges "ghost" world_u1).2
    = badges world_u1 ∧
  submissions (GamificationService.checkAndAwardBadges "ghost" world_u1).2
    = submissions world_u1.
Proof.
  apply (checkAndAwardBadges_unknown_user "ghost" world_u1). reflexivity.
Defined.

(** C2.  A second [checkAndAwardBadges] for the same user, with nothing
    done in between, resolves with the empty list and writes no badge,
    whatever the first call did and whatever is rejected in either call. *)
Theorem checkAndAwardBadges_idempotent userId w fl :
  (GamificationService.checkAndAwardBadges userId
     (set_faults fl (GamificationService.checkAndAwardBadges userId w).2)).1
  = Ok [] ∧
  badges (GamificationService.checkAndAwardBadges userId
            (set_faults fl (GamificationService.checkAndAwardBadges userId w).2)).2
  = badges (GamificationService.checkAndAwardBadges userId w).2.
Proof.
  set (w1 := (GamificationService.checkAndAwardBadges userId w).2).
  by destruct (evaluate_outcome userId (set_faults fl w1)) as (Hr & [_ Hb _ _]).
Qed.

(** For a user with three badges due, both calls stop at the first badge
    write, and the second leaves all but the clock as it was; when the user
    already holds every badge that is due, the call runs through all six
    blocks to the same result. *)
Example checkAndAwardBadges_twice_world_u1 :
  let w1 := (GamificationService.checkAndAwardBadges "u1" world_u1).2 in
  GamificationService.checkAndAwardBadges "u1" w1 = (Ok [], set_clock 2 world_u1) ∧
  (let held := set_badges (λ _, [mkBadge "u1" "first_steps" None 0;
                                 mkBadge "u1" "explorer" None 1;
                                 mkBadge "u1" "perfectionist" None 2]) world_u1 in
   GamificationService.checkAndAwardBadges "u1" held = (Ok [], held)).
Proof. split; reflexivity. Qed.

Lemma filter_is_approved (l : list Submission) :
  filter GamificationService.is_approved l = filter (λ s, s_status s = approved) l.
Proof.
  apply list_filter_iff. intros s. unfold GamificationService.is_approved.
  apply bool_decide_spec.
Qed.

Lemma filter_is_perfect (l : list Submission) :
  filter GamificationService.is_perfect l = filter (meets_cutoff 95) l.
Proof.
  apply list_filter_iff. intros s.
  unfold GamificationService.is_perfect, meets_cutoff.
  destruct (s_score s); [apply bool_decide_spec|done].
Qed.

Lemma criteria_table w userId :
  criteria w userId
  = (λ e : string * Counter * nat,
       (bool_decide (e.2 ≤ counter_value w userId e.1.2), e.1.1)) <$> badge_table.
Proof.
  unfold criteria, criteria_of, submissions_of. cbv zeta.
  rewrite filter_is_perfect, filter_is_approved. reflexivity.
Qed.

(** C4.  The criteria the code tests are those of the table, but no badge
    is granted when one is due: [checkAndAwardBadges] calls
    [awardBadge] with two arguments, the badge write is rejected because the
    document has an undefined [metadata] field, the catch block takes over,
    and the call resolves with the empty list and writes no badge.  For a
    user with five approved submissions, each with a score of 96, and no
    badge, with no remote call rejected, the badges first_steps, explorer
    and perfectionist are due and none is granted. *)
Theorem checkAndAwardBadges_due_not_granted :
  (∀ w userId,
     criteria w userId
     = (λ e : string * Counter * nat,
          (bool_decide (e.2 ≤ counter_value w userId e.1.2), e.1.1)) <$> badge_table) ∧
  (∀ w userId,
     (GamificationService.checkAndAwardBadges userId w).1 = Ok [] ∧
     badges (GamificationService.checkAndAwardBadges userId w).2 = badges w) ∧
  faults world_u1 = [] ∧
  newly_due world_u1 "u1" = ["first_steps"; "explorer"; "perfectionist"] ∧
  (FirebaseService.awardBadge "u1" "first_steps" None world_u1).1
    = Throw (JsError "Cannot use undefined as a Firestore value (found in field metadata)") ∧
  (GamificationService.checkAndAwardBadges "u1" world_u1).1 = Ok [] ∧
  badges (GamificationService.checkAndAwardBadges "u1" world_u1).2 = [].
Proof.
  split_and!; try reflexivity.
  - apply criteria_table.
  - intros w userId. by destruct (evaluate_outcome userId w) as (Hr & [_ Hb _ _]).
Qed.

(** With a third argument the badge write goes through: the rejection is
    caused by the missing argument alone. *)
Example awardBadge_with_metadata :
  FirebaseService.awardBadge "u1" "first_steps" (Some (VStr "manual")) world_u1
  = (Ok 0,
     set_badges (λ _, [mkBadge "u1" "first_steps" (Some (VStr "manual")) 0])
       (set_clock 1 world_u1)).
Proof. reflexivity. Qed.

(** * GamificationService.processChallengeCompletion *)

Lemma points_of_insert w w' userId u d p t :
  users w !! u = Some d →
  users w' = <[u := awarded_doc d p t]> (users w) →
  points_of w' userId
  = (points_of w userId + (if bool_decide (u = userId) then p else 0))%Z.
Proof.
  intros Hd Hu. unfold points_of. rewrite Hu. case_bool_decide as Heq.
  - subst u. rewrite lookup_insert_eq, Hd. simpl.
    by rewrite awarded_doc_points.
  - rewrite lookup_insert_ne by done. lia.
Qed.

Lemma advanced_quiet userId w w' : quiet w w' → advanced userId 0 w w'.
Proof.
  intros [Hu Hb Hs Hf]. unfold advanced, totalPoints_of, points_of.
  rewrite Hu, Hs, Hb. split_and!; try done; lia.
Qed.

Lemma advanced_trans userId p p' w1 w2 w3 :
  advanced userId p w1 w2 → advanced userId p' w2 w3 →
  advanced userId (p + p') w1 w3.
Proof.
  intros (Hs & Hb & Ho & He & Ht & Hp & Hf)
         (Hs' & Hb' & Ho' & He' & Ht' & Hp' & Hf').
  split_and!; try congruence; try lia; try tauto.
  intros u Hu. by rewrite Ho', Ho.
Qed.

Lemma advanced_step userId p p' q w1 w2 w3 :
  advanced userId p w1 w2 → advanced userId p' w2 w3 →
  q = (p + p')%Z →
  advanced userId q w1 w3.
Proof. intros H1 H2 ->. by eapply advanced_trans. Qed.

Lemma advanced_award userId p w w' d t :
  users w !! userId = Some d →
  users w' = <[userId := awarded_doc d p t]> (users w) →
  badges w' = badges w →
  submissions w' = submissions w →
  (faults w = [] → faults w' = []) →
  advanced userId p w w'.
Proof.
  intros Hd Hu Hb Hs Hf. split_and!; try done.
  - intros u Hne. by rewrite Hu, lookup_insert_ne.
  - rewrite Hu, lookup_insert_eq, Hd. split; eauto.
  - rewrite (totalPoints_of_insert _ _ _ _ _ _ _ Hd Hu).
    by rewrite bool_decide_eq_true_2.
  - rewrite (points_of_insert _ _ _ _ _ _ _ Hd Hu).
    by rewrite bool_decide_eq_true_2.
Qed.

Lemma troubled_back userId p w w' :
  advanced userId p w w' → troubled userId w' → troubled userId w.
Proof.
  intros (_ & _ & _ & He & _ & _ & Hf) Ht [Hf0 Hex]. apply Ht.
  split; [auto|]. by apply He.
Qed.

(** An award either credits the user or fails for a reason. *)
Lemma wp_awardPoints_advanced userId points reason w Q :
  (∀ w', advanced userId points w w' → is_Some (users w !! userId) →
     Q (Ok tt) w') →
  (∀ w' e, quiet w w' → troubled userId w →
     (faults w = [] → users w !! userId = None ∧ e = JsError "User not found") →
     Q (Throw e) w') →
  wp (GamificationService.awardPoints userId points reason) w Q.
Proof.
  intros HOk HThrow. apply wp_awardPoints.
  - intros w' d t Hd Hu Hb Hs Hf. apply HOk; [|by eexists].
    by eapply advanced_award.
  - intros w' e Hq He. apply HThrow; [done| |done].
    intros [Hf [d Hd]]. destruct (He Hf). congruence.
Qed.

Lemma wp_rethrow {A} (m : M A) w Q :
  wp m w Q → wp (try_catch m (λ error, throw error)) w Q.
Proof.
  intros Hm. wp_step. eapply wp_mono; [done|].
  intros [a|e] w' HQ; [done|]. by wp_step.
Qed.

Lemma completed_throw userId p e w w' :
  advanced userId p w w' →
  troubled userId w →
  is_Some (users w !! userId) →
  completed userId w (Throw e) w'.
Proof.
  intros Ha Ht [d Hd]. exists p. split_and!; try done.
  - intros Hf Hex. destruct Ht. done.
  - intros Hnone. congruence.
Qed.

Lemma wp_processChallengeCompletion userId challengeId submissionId w :
  wp (GamificationService.processChallengeCompletion userId challengeId submissionId)
     w (completed userId w).
Proof.
  unfold GamificationService.processChallengeCompletion.
  apply wp_rethrow. wp_step. apply wp_awardPoints_advanced.
  - intros w1 Ha1 Hex. wp_step. apply wp_getUserSubmissions.
    + intros w2 Hq2. wp_step.
      assert (advanced userId GamificationService.POINTS.CHALLENGE_COMPLETION
                w w2) as Ha2.
      { eapply advanced_step; [done|by apply advanced_quiet|lia]. }
      assert (length (orderBy_desc s_createdAt
                        (filter (λ s, s_userId s = userId) (submissions w1)))
              = length (submissions_of w userId)) as Hlen.
      { rewrite (Permutation_length (orderBy_desc_perm _ _)).
        destruct Ha1 as (-> & _). done. }
      rewrite Hlen. clear Hlen.
      assert (∀ w3,
                advanced userId
                  (GamificationService.POINTS.CHALLENGE_COMPLETION
                   + first_bonus w userId) w w3 →
                wp (newBadges ← GamificationService.checkAndAwardBadges userId;
                    _ ← for_each newBadges
                          (λ badge, GamificationService.awardPoints userId 50
                                      ("New badge earned: " +:+ badge));
                    mret tt) w3 (completed userId w)) as Hcont.
      { intros w3 Ha3. wp_step.
        eapply wp_mono; [apply wp_checkAndAwardBadges|].
        intros r w4 [-> Hq4]. simpl. do 2 wp_step. wp_step.
        exists (GamificationService.POINTS.CHALLENGE_COMPLETION
                + first_bonus w userId)%Z.
        split_and!.
        - eapply advanced_step; [done|by apply advanced_quiet|lia].
        - done.
        - intros Hnone. destruct Hex. congruence. }
      unfold first_bonus in Hcont. case_bool_decide.
      * apply wp_awardPoints_advanced.
        -- intros w3 Ha3 _. apply Hcont.
           eapply advanced_step; [done|done|done].
        -- intros w3 e Hq3 Ht _.
           apply (completed_throw _
                    GamificationService.POINTS.CHALLENGE_COMPLETION); try done.
           ++ eapply advanced_step; [done|by apply advanced_quiet|lia].
           ++ by eapply troubled_back.
      * wp_step. apply Hcont.
        eapply advanced_step; [done|apply advanced_quiet, quiet_refl|lia].
    + intros w2 Hq2 Hf.
      apply (completed_throw _
               GamificationService.POINTS.CHALLENGE_COMPLETION); try done.
      * eapply advanced_step; [done|by apply advanced_quiet|lia].
      * eapply troubled_back; [done|]. by intros [? _].
  - intros w1 e Hq Ht He. exists 0%Z. split_and!.
    + by apply advanced_quiet.
    + intros Hf Hex. destruct Ht. done.
    + intros Hnone. split_and!; try done. exists e. split; [done|].
      intros Hf. by destruct (He Hf).
Qed.

(** * No badge is granted twice *)





(** * Runs in which no remote call is rejected *)

Lemma world_eta w :
  mkWorld (users w) (badges w) (submissions w) (redis w) (clock w) (faults w) = w.
Proof. by destruct w. Qed.

Lemma purge_lookup prefix m k :
  purge prefix m !! k = if String.prefix prefix k then None else m !! k.
Proof.
  unfold purge, CacheService.keys_matching.
  destruct (String.prefix prefix k) eqn:Hp.
  - destruct (m !! k) as [v|] eqn:Hk.
    + apply lookup_foldr_delete. apply list_elem_of_filter. split; [done|].
      apply elem_of_elements, elem_of_dom. by eexists.
    + destruct (foldr delete m _ !! k) as [v|] eqn:Hv; [|done].
      apply lookup_foldr_delete_Some in Hv as [_ Hv]. congruence.
  - apply lookup_foldr_delete_not_elem_of.
    intros [Hp' _]%list_elem_of_filter. congruence.
Qed.

Lemma getUser_run userId w :
  faults w = [] →
  FirebaseService.getUser userId w
  = (Ok ((λ d : Doc, d ∪ {[ "id" := VStr userId ]}) <$> users w !! userId), w).
Proof.
  intros Hf. unfold FirebaseService.getUser, mbind, M_bind, attempt.
  by rewrite Hf.
Qed.

Lemma updateUser_run userId updates d w :
  faults w = [] →
  users w !! userId = Some d →
  FirebaseService.updateUser userId updates w
  = (Ok tt,
     set_users (insert userId (<[ "updatedAt" := VTime (clock w) ]> updates ∪ d))
       (set_clock (S (clock w)) w)).
Proof.
  intros Hf Hd. unfold FirebaseService.updateUser, mbind, M_bind, attempt, now.
  simpl. rewrite Hf.
  change (users (set_clock (S (clock w)) w)) with (users w). by rewrite Hd.
Qed.

Lemma get_run key w :
  faults w = [] →
  CacheService.get key w = (Ok (redis w ≫= (λ m, m !! key)), w).
Proof.
  intros Hf. unfold CacheService.get, mbind at 1, M_bind at 1. simpl.
  destruct (redis w) as [m|] eqn:Hr; [|done].
  unfold try_catch, mbind, M_bind, attempt. rewrite Hf. simpl. by rewrite Hr.
Qed.

Lemma set_run key value w :
  faults w = [] →
  CacheService.set key value w = (Ok tt, set_redis (insert key value) w).
Proof.
  intros Hf. unfold CacheService.set, mbind at 1, M_bind at 1. simpl.
  destruct (redis w) as [m|] eqn:Hr.
  - unfold try_catch, mbind, M_bind, attempt. by rewrite Hf.
  - unfold set_redis. rewrite Hr. simpl. by rewrite <-Hr, world_eta.
Qed.

Lemma del_run key w :
  faults w = [] →
  CacheService.del key w = (Ok tt, set_redis (delete key) w).
Proof.
  intros Hf. unfold CacheService.del, mbind at 1, M_bind at 1. simpl.
  destruct (redis w) as [m|] eqn:Hr.
  - unfold try_catch, mbind, M_bind, attempt. by rewrite Hf.
  - unfold set_redis. rewrite Hr. simpl. by rewrite <-Hr, world_eta.
Qed.

Lemma delPattern_run prefix w :
  faults w = [] →
  CacheService.delPattern prefix w = (Ok tt, set_redis (purge prefix) w).
Proof.
  intros Hf. unfold CacheService.delPattern, mbind at 1, M_bind at 1. simpl.
  destruct (redis w) as [m|] eqn:Hr.
  - unfold try_catch, mbind at 1, M_bind at 1, attempt. rewrite Hf.
    case_bool_decide as Hk.
    + unfold mbind, M_bind, attempt, modify. rewrite Hf.
      unfold set_redis. by rewrite Hr.
    + unfold set_redis, purge. rewrite Hr. simpl.
      destruct (CacheService.keys_matching prefix m) as [|k ks]; [|simpl in Hk; lia].
      simpl. by rewrite <-Hr, world_eta.
  - unfold set_redis. rewrite Hr. simpl. by rewrite <-Hr, world_eta.
Qed.

Lemma invalidateUserCache_run userId w :
  faults w = [] →
  CacheService.invalidateUserCache userId w
  = (Ok tt,
     set_redis (purge ("user:" +:+ userId +:+ ":"))
       (set_redis (delete ("user:" +:+ userId)) w)).
Proof.
  intros Hf. unfold CacheService.invalidateUserCache.
  erewrite bind_run; [|by apply del_run]. by apply delPattern_run.
Qed.

Lemma awardPoints_run userId points reason d w :
  faults w = [] →
  users w !! userId = Some d →
  GamificationService.awardPoints userId points reason w
  = (Ok tt, awarded_world userId d points w).
Proof.
  intros Hf Hd. unfold GamificationService.awardPoints, awarded_world.
  apply try_run.
  erewrite bind_run; [|by apply getUser_run]. rewrite Hd. simpl.
  rewrite !lookup_with_id by done.
  erewrite bind_run; [|by apply updateUser_run].
  erewrite bind_run; [|by apply invalidateUserCache_run].
  by apply delPattern_run.
Qed.

Lemma getCachedLeaderboard_run w :
  faults w = [] →
  CacheService.getCachedLeaderboard "global" w
  = (Ok (redis w ≫= (λ m, m !! leaderboard_key)), w).
Proof. intros Hf. by apply get_run. Qed.

(** * Which errors reach the caller *)




Lemma slice0_nil {A} limit : slice0 limit ([] : list A) = [].
Proof. unfold slice0. case_bool_decide; apply take_nil. Qed.

Lemma slice0_prefix {A} limit (l : list A) : slice0 limit l `prefix_of` l.
Proof. unfold slice0. case_bool_decide; apply prefix_take. Qed.

Lemma slice0_length {A} limit (l : list A) :
  length (slice0 limit l)
  = if bool_decide (0 ≤ limit)%Z
    then min (Z.to_nat limit) (length l)
    else length l - Z.to_nat (- limit).
Proof.
  unfold slice0. repeat case_bool_decide; try lia; rewrite length_take; lia.
Qed.








(** Two of these cases at work: a rejected [updateUser]
    reaches the caller of [awardPoints]; a rejected [getUserSubmissions]
    reaches the caller of [processChallengeCompletion], after the 100 points
    have been written. *)
Example error_propagation_world_u1 :
  (GamificationService.awardPoints "u1" 100 "challenge"
     (set_faults [false; true] world_u1)).1 = Throw Rejected ∧
  (GamificationService.processChallengeCompletion "u1" "c1" "s1"
     (set_faults (replicate 5 false ++ [true]) world_u1)).1 = Throw Rejected ∧
  totalPoints_of
    (GamificationService.processChallengeCompletion "u1" "c1" "s1"
       (set_faults (replicate 5 false ++ [true]) world_u1)).2 "u1" = 100%Z.
Proof. split_and!; reflexivity. Qed.

(** * Levels *)

Lemma level_scan_mono thresholds :
  ∀ L best best' a b,
    (a ≤ b)%Z → best ≤ best' → best' ≤ L →
    level_scan thresholds L best a ≤ level_scan thresholds L best' b.
Proof.
  induction thresholds as [|th rest IH]; intros L best best' a b Hab Hbb HL;
    simpl; [done|].
  apply IH; [done| |].
  - repeat case_bool_decide; lia.
  - case_bool_decide; lia.
Qed.

Lemma level_scan_above thresholds :
  ∀ L best t,
    Forall (λ th, (t < th)%Z) thresholds →
    level_scan thresholds L best t = best.
Proof.
  induction thresholds as [|th rest IH]; intros L best t Hall; simpl; [done|].
  apply Forall_cons in Hall as [Hth Hrest].
  rewrite bool_decide_eq_false_2 by lia. by apply IH.
Qed.

(** C5.  Over a threshold table that is strictly increasing and starts at
    0, the level is monotone in the point total, and a total of 0 gives
    level 1. *)
Theorem level_monotone thresholds a b :
  StronglySorted Z.lt thresholds →
  head thresholds = Some 0%Z →
  ((a ≤ b)%Z → level thresholds a ≤ level thresholds b) ∧
  level thresholds 0 = 1.
Proof.
  intros Hsorted Hhead. split.
  - intros Hab. by apply level_scan_mono.
  - destruct thresholds as [|th rest]; [done|].
    simpl in Hhead. injection Hhead as ->.
    apply StronglySorted_inv in Hsorted as [_ Hrest].
    unfold level. simpl. by apply level_scan_above.
Qed.

Lemma level_monotone_witness :
  ((100 ≤ 301)%Z → level [0; 101; 301; 701]%Z 100 ≤ level [0; 101; 301; 701]%Z 301) ∧
  level [0; 101; 301; 701]%Z 0 = 1.
Proof.
  apply (level_monotone [0; 101; 301; 701]%Z 100 301).
  - repeat constructor; lia.
  - reflexivity.
Defined.

(** * Further properties of awardPoints *)

(** X1.  When no remote call is rejected, an award to an existing user
    removes from the cache the user's entry, every entry under the user's
    prefix and every leaderboard entry, and leaves every other cache entry as
    it was. *)
Theorem awardPoints_invalidates_cache userId points reason w d m :
  faults w = [] →
  users w !! userId = Some d →
  redis w = Some m →
  ∃ m',
    redis (GamificationService.awardPoints userId points reason w).2 = Some m' ∧
    ∀ k, m' !! k = if invalidated_by_award userId k then None else m !! k.
Proof.
  intros Hf Hd Hm. rewrite (awardPoints_run _ _ _ d) by done.
  unfold awarded_world. simpl. rewrite Hm. simpl. eexists. split; [done|].
  intros k. rewrite !purge_lookup. unfold invalidated_by_award.
  destruct (String.prefix "leaderboard:" k); [by rewrite orb_true_r|].
  destruct (String.prefix ("user:" +:+ userId +:+ ":") k);
    [by rewrite orb_true_r|].
  rewrite !orb_false_r. case_bool_decide as Hk.
  - subst k. apply lookup_delete_eq.
  - by apply lookup_delete_ne.
Qed.

Lemma awardPoints_invalidates_cache_witness :
  ∃ m',
    redis (GamificationService.awardPoints "u1" 100 "challenge" world_cached).2
      = Some m' ∧
    ∀ k, m' !! k
         = if invalidated_by_award "u1" k then None
           else ({[ "leaderboard:global" := CArr [registered; registered; registered];
                    "user:u1" := CObj registered;
                    "user:u1:stats" := CNum 3;
                    "user:u2" := CObj registered;
                    "hits" := CNum 4 ]} : gmap string CacheVal) !! k.
Proof.
  apply (awardPoints_invalidates_cache "u1" 100 "challenge" world_cached registered);
    reflexivity.
Defined.

(** X2.  Whatever Firestore and Redis reject: when [awardPoints] rejects,
    no user document, badge or submission has changed. *)
Theorem awardPoints_atomic userId points reason w e :
  (GamificationService.awardPoints userId points reason w).1 = Throw e →
  users (GamificationService.awardPoints userId points reason w).2 = users w ∧
  badges (GamificationService.awardPoints userId points reason w).2 = badges w ∧
  submissions (GamificationService.awardPoints userId points reason w).2
    = submissions w.
Proof.
  intros Hr.
  pose proof (awardPoints_outcome userId points reason w) as H. unfold wp in H.
  destruct H as [(Hr' & _)|(e' & _ & [Hu Hb Hs _] & _)]; [congruence|done].
Qed.

Lemma awardPoints_atomic_witness :
  users (GamificationService.awardPoints "u1" 100 "challenge"
           (set_faults [false; true] world_u1)).2
    = users (set_faults [false; true] world_u1) ∧
  badges (GamificationService.awardPoints "u1" 100 "challenge"
            (set_faults [false; true] world_u1)).2
    = badges (set_faults [false; true] world_u1) ∧
  submissions (GamificationService.awardPoints "u1" 100 "challenge"
                 (set_faults [false; true] world_u1)).2
    = submissions (set_faults [false; true] world_u1).
Proof.
  apply (awardPoints_atomic "u1" 100 "challenge"
           (set_faults [false; true] world_u1) Rejected).
  reflexivity.
Defined.

(** X3.  Whatever is rejected and whether it resolves or not,
    [awardPoints] leaves the documents of all other users, the badges and
    the submissions as they were. *)
Theorem awardPoints_other_users userId points reason w u :
  u ≠ userId →
  users (GamificationService.awardPoints userId points reason w).2 !! u
    = users w !! u ∧
  badges (GamificationService.awardPoints userId points reason w).2 = badges w ∧
  submissions (GamificationService.awardPoints userId points reason w).2
    = submissions w.
Proof.
  intros Hne.
  pose proof (awardPoints_outcome userId points reason w) as H. unfold wp in H.
  destruct H as [(_ & (d & t & _ & Hu) & Hb & Hs & _)|(e' & _ & [Hu Hb Hs _] & _)].
  - rewrite Hu, lookup_insert_ne by done. done.
  - by rewrite Hu.
Qed.

Lemma awardPoints_other_users_witness :
  users (GamificationService.awardPoints "u1" 100 "challenge" world_cached).2 !! "u2"
    = users world_cached !! "u2" ∧
  badges (GamificationService.awardPoints "u1" 100 "challenge" world_cached).2
    = badges world_cached ∧
  submissions (GamificationService.awardPoints "u1" 100 "challenge" world_cached).2
    = submissions world_cached.
Proof.
  apply (awardPoints_other_users "u1" 100 "challenge" world_cached "u2"). done.
Defined.

(** * Further properties of checkAndAwardBadges *)

(** X4.  Whatever is rejected, [checkAndAwardBadges] changes no user
    document and no submission, and only appends badge documents: each one
    is for this user, of a type that was due (its threshold reached) and that
    the user did not hold, and no type is appended twice. *)
Theorem checkAndAwardBadges_frame userId w :
  users (GamificationService.checkAndAwardBadges userId w).2 = users w ∧
  submissions (GamificationService.checkAndAwardBadges userId w).2 = submissions w ∧
  ∃ bs,
    badges (GamificationService.checkAndAwardBadges userId w).2 = badges w ++ bs ∧
    NoDup (b_type <$> bs) ∧
    ∀ b, b ∈ bs →
      b_userId b = userId ∧ b_type b ∈ newly_due w userId ∧
      b_type b ∉ earned w userId.
Proof.
  destruct (evaluate_outcome userId w) as (_ & [Hu Hb Hs _]).
  split_and!; [done|done|]. exists []. split_and!.
  - by rewrite app_nil_r.
  - constructor.
  - intros b Hin. by apply elem_of_nil in Hin.
Qed.

(** X5.  Whatever is rejected, [checkAndAwardBadges] never returns and
    never writes a badge of the types culture_buff, foodie,
    social_butterfly or early_bird, which the catalogue [BADGES] lists: a
    user holds one of them after the call only if the user held it before. *)
Theorem checkAndAwardBadges_never_evaluated userId w b :
  b ∈ never_evaluated →
  (∀ nb, (GamificationService.checkAndAwardBadges userId w).1 = Ok nb → b ∉ nb) ∧
  (b ∈ earned (GamificationService.checkAndAwardBadges userId w).2 userId →
   b ∈ earned w userId).
Proof.
  intros _.
  destruct (evaluate_outcome userId w) as (Hr & [_ Hb _ _]). split.
  - intros nb Hnb. rewrite Hr in Hnb. injection Hnb as <-. apply not_elem_of_nil.
  - unfold earned. by rewrite Hb.
Qed.

Lemma checkAndAwardBadges_never_evaluated_witness :
  (∀ nb, (GamificationService.checkAndAwardBadges "u1" world_u1).1 = Ok nb →
         "foodie" ∉ nb) ∧
  ("foodie" ∈ earned (GamificationService.checkAndAwardBadges "u1" world_u1).2 "u1" →
   "foodie" ∈ earned world_u1 "u1").
Proof.
  apply (checkAndAwardBadges_never_evaluated "u1" world_u1 "foodie").
  by apply (bool_decide_unpack _).
Defined.

(** * Further properties of processChallengeCompletion *)

Lemma complete_outcome userId challengeId submissionId w :
  completed userId w
    (GamificationService.processChallengeCompletion userId challengeId submissionId w).1
    (GamificationService.processChallengeCompletion userId challengeId submissionId w).2.
Proof. apply wp_processChallengeCompletion. Qed.

(** X6.  For an existing user, when no remote call is rejected,
    [processChallengeCompletion] resolves; the user's [points] and
    [totalPoints] have both grown by 100, plus 50 when the user has exactly
    one submission (of any status), and by nothing more: no badge document
    is written and no badge bonus is paid, also when badges are due. *)
Theorem processChallengeCompletion_credit userId challengeId submissionId w :
  faults w = [] →
  is_Some (users w !! userId) →
  let run :=
    GamificationService.processChallengeCompletion userId challengeId submissionId w in
  let credit :=
    (100 + (if bool_decide (length (submissions_of w userId) = 1%nat)
            then 50 else 0))%Z in
  run.1 = Ok tt ∧
  totalPoints_of run.2 userId = (totalPoints_of w userId + credit)%Z ∧
  points_of run.2 userId = (points_of w userId + credit)%Z ∧
  badges run.2 = badges w.
Proof.
  intros Hf Hex run credit.
  destruct (complete_outcome userId challengeId submissionId w)
    as (p & (_ & Hb & _ & _ & Ht & Hp & _) & Hall & _).
  destruct (Hall Hf Hex) as (Hr & ->).
  assert ((GamificationService.POINTS.CHALLENGE_COMPLETION + first_bonus w userId)%Z
          = credit) as Hc.
  { unfold credit, first_bonus, GamificationService.POINTS.CHALLENGE_COMPLETION,
      GamificationService.POINTS.FIRST_CHALLENGE. done. }
  rewrite Hc in *. by split_and!.
Qed.

Lemma processChallengeCompletion_credit_witness :
  let run := GamificationService.processChallengeCompletion "u1" "c1" "s1" world_u1 in
  let credit :=
    (100 + (if bool_decide (length (submissions_of world_u1 "u1") = 1%nat)
            then 50 else 0))%Z in
  run.1 = Ok tt ∧
  totalPoints_of run.2 "u1" = (totalPoints_of world_u1 "u1" + credit)%Z ∧
  points_of run.2 "u1" = (points_of world_u1 "u1" + credit)%Z ∧
  badges run.2 = badges world_u1.
Proof.
  apply (processChallengeCompletion_credit "u1" "c1" "s1" world_u1).
  - reflexivity.
  - eexists. reflexivity.
Defined.

(** With five approved submissions and three badges due the total grows by
    100; with a single submission, still pending, it grows by 150. *)
Example processChallengeCompletion_world_u1 :
  totalPoints_of
    (GamificationService.processChallengeCompletion "u1" "c1" "s1" world_u1).2 "u1"
  = 100%Z ∧
  totalPoints_of
    (GamificationService.processChallengeCompletion "u1" "c1" "s1" world_first).2 "u1"
  = 150%Z.
Proof. split; reflexivity. Qed.

(** X7.  For a [userId] that names no user, [processChallengeCompletion]
    rejects, with "User not found" when no remote call is rejected, and
    leaves the three collections as they were. *)
Theorem processChallengeCompletion_unknown_user userId challengeId submissionId w :
  users w !! userId = None →
  let run :=
    GamificationService.processChallengeCompletion userId challengeId submissionId w in
  (∃ e, run.1 = Throw e ∧ (faults w = [] → e = JsError "User not found")) ∧
  users run.2 = users w ∧
  badges run.2 = badges w ∧
  submissions run.2 = submissions w.
Proof.
  intros Hnone run. subst run.
  destruct (complete_outcome userId challengeId submissionId w)
    as (p & Ha & _ & Hunknown).
  destruct (Hunknown Hnone) as (_ & He).
  destruct Ha as (Hs & Hb & Ho & Hsome & _).
  split_and!; [done| |done|done].
  apply map_eq. intros u. destruct (decide (u = userId)) as [->|Hne]; [|by apply Ho].
  rewrite Hnone. apply eq_None_not_Some. rewrite Hsome, Hnone.
  by intros [? ?].
Qed.

Lemma processChallengeCompletion_unknown_user_witness :
  let run := GamificationService.processChallengeCompletion "ghost" "c1" "s1" world_u1 in
  (∃ e, run.1 = Throw e ∧ (faults world_u1 = [] → e = JsError "User not found")) ∧
  users run.2 = users world_u1 ∧
  badges run.2 = badges world_u1 ∧
  submissions run.2 = submissions world_u1.
Proof.
  apply (processChallengeCompletion_unknown_user "ghost" "c1" "s1" world_u1).
  reflexivity.
Defined.

(** X8.  Whatever is rejected and whether it resolves or not,
    [processChallengeCompletion] changes no submission and no document of
    another user, and only appends badge documents, each for this user and of
    a type that was due. *)
Theorem processChallengeCompletion_frame userId challengeId submissionId w :
  let run :=
    GamificationService.processChallengeCompletion userId challengeId submissionId w in
  submissions run.2 = submissions w ∧
  (∀ u, u ≠ userId → users run.2 !! u = users w !! u) ∧
  ∃ bs, badges run.2 = badges w ++ bs ∧
        ∀ b, b ∈ bs → b_userId b = userId ∧ b_type b ∈ newly_due w userId.
Proof.
  intros run. subst run.
  destruct (complete_outcome userId challengeId submissionId w)
    as (p & (Hs & Hb & Ho & _) & _).
  split_and!; [done|done|]. exists []. split.
  - by rewrite app_nil_r.
  - intros b Hin. by apply elem_of_nil in Hin.
Qed.

(** * Invariants of every sequence of calls *)

Lemma run_call_users c w u :
  (is_Some (users (run_call c w) !! u) ↔ is_Some (users w !! u)) ∧
  (points_of (run_call c w) u - totalPoints_of (run_call c w) u
   = points_of w u - totalPoints_of w u)%Z.
Proof.
  destruct c as [u0 p r|u0|u0 ch s]; simpl.
  - pose proof (awardPoints_outcome u0 p r w) as H. unfold wp in H.
    destruct H as [(_ & (d & t & Hd & Hu) & _)|(e' & _ & [Hu _ _ _] & _)].
    + split.
      * rewrite Hu. destruct (decide (u0 = u)) as [->|Hne].
        -- rewrite lookup_insert_eq, Hd. split; eauto.
        -- by rewrite lookup_insert_ne.
      * rewrite (points_of_insert _ _ _ _ _ _ _ Hd Hu),
          (totalPoints_of_insert _ _ _ _ _ _ _ Hd Hu). lia.
    + unfold points_of, totalPoints_of. by rewrite Hu.
  - destruct (evaluate_outcome u0 w) as (_ & [Hu _ _ _]).
    unfold points_of, totalPoints_of. by rewrite Hu.
  - destruct (complete_outcome u0 ch s w)
      as (p & (_ & _ & Ho & Hsome & Ht & Hp & _) & _).
    destruct (decide (u = u0)) as [->|Hne].
    + split; [done|]. rewrite Ht, Hp. lia.
    + unfold points_of, totalPoints_of. by rewrite Ho.
Qed.

(** X9.  Every call adds the same amount to [points] and to [totalPoints]:
    over any sequence of calls, whatever is rejected, the difference of the
    two fields of a user stays what it was (a missing field counting as 0). *)
Theorem points_follow_totalPoints cs w u :
  (points_of (run_calls cs w) u - totalPoints_of (run_calls cs w) u
   = points_of w u - totalPoints_of w u)%Z.
Proof.
  revert w. induction cs as [|c cs IH]; intros w; [done|].
  unfold run_calls in *. simpl. rewrite IH.
  apply run_call_users.
Qed.

(** X10.  No sequence of calls creates or deletes a user document,
    whatever is rejected. *)
Theorem users_stay cs w u :
  is_Some (users (run_calls cs w) !! u) ↔ is_Some (users w !! u).
Proof.
  revert w. induction cs as [|c cs IH]; intros w; [done|].
  unfold run_calls in *. simpl. rewrite IH.
  apply run_call_users.
Qed.

(** * getLeaderboard *)

Lemma wp_getLeaderboard limit w :
  wp (GamificationService.getLeaderboard limit) w
     (λ r w', ∃ l, r = Ok l ∧
                   (l = [] ∨ ∃ c, l = slice0 (default 10%Z limit) c) ∧
                   quiet w w').
Proof.
  unfold GamificationService.getLeaderboard. cbv zeta.
  wp_step. wp_step. apply cache_like_getCachedLeaderboard.
  intros cached w1 Hq1.
  set (Q := λ (r : Result (list Doc)) (w' : World),
              ∃ l, r = Ok l ∧
                   (l = [] ∨ ∃ c, l = slice0 (default 10%Z limit) c) ∧
                   quiet w w').
  assert (wp (_ ← CacheService.cacheLeaderboard "global" (CArr []);
              mret (slice0 (default 10%Z limit) ([] : list Doc))) w1
            (λ r w',
               match r with
               | Ok a => Q (Ok a) w'
               | Throw e => wp (mret []) w' Q
               end)) as Hmiss.
  { wp_step. apply cache_like_cacheLeaderboard. intros _ w2 Hq2. wp_step.
    eexists. split; [done|]. split; [left; apply slice0_nil|].
    by eapply quiet_trans. }
  destruct cached as [[l|d|n]|].
  - wp_step. eexists. split; [done|]. split; [right; by eexists|done].
  - do 2 wp_step. eexists. split; [done|]. split; [by left|done].
  - case_bool_decide; [exact Hmiss|]. do 2 wp_step.
    eexists. split; [done|]. split; [by left|done].
  - exact Hmiss.
Qed.

(** X11.  Whatever is rejected and whatever the cache holds,
    [getLeaderboard] resolves, with at most [limit] entries when [limit]
    (10 when omitted) is not negative, and it changes nothing in Firestore. *)
Theorem getLeaderboard_bounded limit w :
  (0 ≤ default 10 limit)%Z →
  ∃ l,
    (GamificationService.getLeaderboard limit w).1 = Ok l ∧
    length l ≤ Z.to_nat (default 10%Z limit) ∧
    quiet w (GamificationService.getLeaderboard limit w).2.
Proof.
  intros Hlim. destruct (wp_getLeaderboard limit w) as (l & Hr & Hl & Hq).
  exists l. split_and!; [done| |done].
  destruct Hl as [->|[c ->]]; [simpl; lia|].
  rewrite slice0_length, bool_decide_eq_true_2 by done. lia.
Qed.

Lemma getLeaderboard_bounded_witness :
  ∃ l,
    (GamificationService.getLeaderboard (Some 2%Z) world_cached).1 = Ok l ∧
    length l ≤ Z.to_nat (default 10%Z (Some 2%Z)) ∧
    quiet world_cached (GamificationService.getLeaderboard (Some 2%Z) world_cached).2.
Proof.
  apply (getLeaderboard_bounded (Some 2%Z) world_cached). simpl. lia.
Defined.

(** X12.  When no remote call is rejected and the cache holds a list under
    the global leaderboard key, [getLeaderboard] resolves with the first
    [limit] entries of that list (all but the last -[limit] ones when [limit]
    is negative) and changes nothing. *)
Theorem getLeaderboard_cached limit w m l :
  faults w = [] →
  redis w = Some m →
  m !! leaderboard_key = Some (CArr l) →
  GamificationService.getLeaderboard limit w
    = (Ok (slice0 (default 10%Z limit) l), w) ∧
  slice0 (default 10%Z limit) l `prefix_of` l ∧
  length (slice0 (default 10%Z limit) l)
  = if bool_decide (0 ≤ default 10 limit)%Z
    then min (Z.to_nat (default 10%Z limit)) (length l)
    else length l - Z.to_nat (- default 10%Z limit).
Proof.
  intros Hf Hm Hl. split_and!; [|apply slice0_prefix|apply slice0_length].
  unfold GamificationService.getLeaderboard. cbv zeta. apply try_run.
  erewrite bind_run; [|by apply getCachedLeaderboard_run].
  rewrite Hm. simpl. by rewrite Hl.
Qed.

Lemma getLeaderboard_cached_witness :
  GamificationService.getLeaderboard (Some (-1)%Z) world_cached
    = (Ok (slice0 (default 10%Z (Some (-1)%Z)) [registered; registered; registered]),
       world_cached) ∧
  slice0 (default 10%Z (Some (-1)%Z)) [registered; registered; registered]
    `prefix_of` [registered; registered; registered] ∧
  length (slice0 (default 10%Z (Some (-1)%Z)) [registered; registered; registered])
  = if bool_decide (0 ≤ default 10 (Some (-1)))%Z
    then min (Z.to_nat (default 10%Z (Some (-1)%Z)))
             (length [registered; registered; registered])
    else length [registered; registered; registered]
         - Z.to_nat (- default 10%Z (Some (-1)%Z)).
Proof.
  apply (getLeaderboard_cached (Some (-1)%Z) world_cached
           {[ "leaderboard:global" := CArr [registered; registered; registered];
              "user:u1" := CObj registered;
              "user:u1:stats" := CNum 3;
              "user:u2" := CObj registered;
              "hits" := CNum 4 ]}); reflexivity.
Defined.

Lemma getLeaderboard_miss_run limit w :
  faults w = [] →
  redis w ≫= (λ m, m !! leaderboard_key) = None →
  GamificationService.getLeaderboard limit w
  = (Ok [], set_redis (insert leaderboard_key (CArr [])) w).
Proof.
  intros Hf Hnone.
  unfold GamificationService.getLeaderboard. cbv zeta.
  unfold try_catch.
  erewrite bind_run; [|by apply getCachedLeaderboard_run].
  rewrite Hnone.
  erewrite bind_run; [|by apply set_run].
  by rewrite slice0_nil.
Qed.

(** X13.  When no remote call is rejected and the cache has no entry under
    the global leaderboard key (or is not configured), [getLeaderboard]
    resolves with the empty list and stores the empty list under that key. *)
Theorem getLeaderboard_miss limit w :
  faults w = [] →
  redis w ≫= (λ m, m !! leaderboard_key) = None →
  GamificationService.getLeaderboard limit w
  = (Ok [], set_redis (insert leaderboard_key (CArr [])) w).
Proof. apply getLeaderboard_miss_run. Qed.

Lemma getLeaderboard_miss_witness :
  GamificationService.getLeaderboard None world_u1
  = (Ok [], set_redis (insert leaderboard_key (CArr [])) world_u1).
Proof.
  apply (getLeaderboard_miss None world_u1); reflexivity.
Defined.

(** X14.  After an award to an existing user in which no remote call was
    rejected, the next [getLeaderboard] does not serve what the cache held
    before the award: it resolves with the empty list. *)
Theorem getLeaderboard_after_award userId points reason limit w :
  faults w = [] →
  is_Some (users w !! userId) →
  (GamificationService.getLeaderboard limit
     (GamificationService.awardPoints userId points reason w).2).1 = Ok [].
Proof.
  intros Hf [d Hd]. rewrite (awardPoints_run _ _ _ d) by done.
  rewrite getLeaderboard_miss_run; [done|done|].
  unfold awarded_world. simpl. destruct (redis w) as [m|]; [|done]. simpl.
  by rewrite purge_lookup.
Qed.

Lemma getLeaderboard_after_award_witness :
  (GamificationService.getLeaderboard (Some 2%Z)
     (GamificationService.awardPoints "u1" 100 "challenge" world_cached).2).1 = Ok [].
Proof.
  apply (getLeaderboard_after_award "u1" 100 "challenge" (Some 2%Z) world_cached).
  - reflexivity.
  - eexists. reflexivity.
Defined.

(** * CacheService *)

Lemma cache_like_resolves {A} (m : M A) : cache_like m → resolves_quietly m.
Proof. intros Hm w. apply Hm. intros a w' Hq. by exists a. Qed.

Lemma cache_like_exists key : cache_like (CacheService.exists_ key).
Proof.
  apply (cache_like_guarded (λ _, _)). intros _ w Q HOk HThrow.
  wp_step. apply wp_attempt; [|by intros; apply HThrow].
  intros w' Hq. do 2 wp_step. by apply HOk.
Qed.

Lemma cache_like_incrementRateLimit key ttl :
  cache_like (CacheService.incrementRateLimit key ttl).
Proof.
  apply (cache_like_guarded (λ _, _)). intros _ w Q HOk HThrow.
  wp_step. apply wp_attempt; [|by intros; apply HThrow].
  intros w1 Hq1. do 2 wp_step. wp_step.
  assert (∀ current,
            wp (_ ← modify (set_redis (insert key (CNum current)));
                _ ← (if bool_decide (current = 1%Z) then attempt else mret tt);
                mret current) w1 Q) as Hrest.
  { intros current. do 2 wp_step. wp_step.
    assert (quiet w (set_redis <[key:=CNum current]> w1)) as Hq2
      by (eapply quiet_trans; [done|apply quiet_set_redis]).
    case_bool_decide.
    - apply wp_attempt.
      + intros w3 Hq3. wp_step. apply HOk. by eapply quiet_trans.
      + intros w3 Hq3 _. apply HThrow. by eapply quiet_trans.
    - do 2 wp_step. by apply HOk. }
  destruct (redis w1 ≫= _) as [[l|d|n]|].
  - wp_step. by apply HThrow.
  - wp_step. by apply HThrow.
  - wp_step. apply Hrest.
  - wp_step. apply Hrest.
Qed.

Lemma cache_like_getRateLimit key : cache_like (CacheService.getRateLimit key).
Proof.
  apply (cache_like_guarded (λ _, _)). intros _ w Q HOk HThrow.
  wp_step. apply wp_attempt; [|by intros; apply HThrow].
  intros w' Hq. do 2 wp_step.
  destruct (redis w' ≫= _) as [[l|d|n]|]; wp_step; by apply HOk.
Qed.

Lemma cache_like_invalidateSubmissionCache userId challengeId :
  cache_like (CacheService.invalidateSubmissionCache userId challengeId).
Proof.
  apply cache_like_bind; [apply cache_like_delPattern|]. intros _.
  apply cache_like_bind; [apply cache_like_delPattern|]. intros _.
  apply cache_like_invalidateLeaderboardCache.
Qed.

(** X15.  No call of the cache service ever rejects, whatever Redis does,
    and none changes a user document, a badge or a submission. *)
Theorem cache_calls_resolve key value prefix userId challengeId ttl :
  resolves_quietly (CacheService.get key) ∧
  resolves_quietly (CacheService.set key value) ∧
  resolves_quietly (CacheService.del key) ∧
  resolves_quietly (CacheService.exists_ key) ∧
  resolves_quietly (CacheService.delPattern prefix) ∧
  resolves_quietly (CacheService.cacheUser userId value) ∧
  resolves_quietly (CacheService.getCachedUser userId) ∧
  resolves_quietly (CacheService.invalidateUserCache userId) ∧
  resolves_quietly (CacheService.invalidateLeaderboardCache) ∧
  resolves_quietly (CacheService.invalidateSubmissionCache userId challengeId) ∧
  resolves_quietly (CacheService.incrementRateLimit key ttl) ∧
  resolves_quietly (CacheService.getRateLimit key).
Proof.
  split_and!; apply cache_like_resolves.
  - apply cache_like_get.
  - apply cache_like_set.
  - apply cache_like_del.
  - apply cache_like_exists.
  - apply cache_like_delPattern.
  - apply cache_like_set.
  - apply cache_like_get.
  - apply cache_like_invalidateUserCache.
  - apply cache_like_invalidateLeaderboardCache.
  - apply cache_like_invalidateSubmissionCache.
  - apply cache_like_incrementRateLimit.
  - apply cache_like_getRateLimit.
Qed.

(** X16.  With Redis configured and no remote call rejected: a value that
    was set is what [get] returns, a deleted key is gone, and setting a key
    leaves the other keys as they were. *)
Theorem cache_set_get key key' value w m :
  faults w = [] →
  redis w = Some m →
  key' ≠ key →
  (CacheService.get key (CacheService.set key value w).2).1 = Ok (Some value) ∧
  (CacheService.get key (CacheService.del key w).2).1 = Ok None ∧
  (CacheService.get key' (CacheService.set key value w).2).1 = Ok (m !! key').
Proof.
  intros Hf Hm Hne. rewrite set_run, del_run by done.
  rewrite !get_run by done. simpl. rewrite Hm. simpl.
  by rewrite lookup_insert_eq, lookup_delete_eq, lookup_insert_ne.
Qed.

Lemma cache_set_get_witness :
  (CacheService.get "hits" (CacheService.set "hits" (CNum 9) world_cached).2).1
    = Ok (Some (CNum 9)) ∧
  (CacheService.get "hits" (CacheService.del "hits" world_cached).2).1 = Ok None ∧
  (CacheService.get "user:u2" (CacheService.set "hits" (CNum 9) world_cached).2).1
    = Ok (({[ "leaderboard:global" := CArr [registered; registered; registered];
              "user:u1" := CObj registered;
              "user:u1:stats" := CNum 3;
              "user:u2" := CObj registered;
              "hits" := CNum 4 ]} : gmap string CacheVal) !! "user:u2").
Proof.
  apply (cache_set_get "hits" "user:u2" (CNum 9) world_cached); done.
Defined.

(** X17.  With Redis configured and no remote call rejected, on a key that
    is missing (counting as 0) or holds an integer n: [incrementRateLimit]
    resolves with n + 1 and stores it, and [getRateLimit] then resolves with
    n + 1. *)
Theorem rate_limit_counts key ttl w m n :
  faults w = [] →
  redis w = Some m →
  (m !! key = None ∧ n = 0%Z) ∨ m !! key = Some (CNum n) →
  CacheService.incrementRateLimit key ttl w
    = (Ok (n + 1)%Z, set_redis (insert key (CNum (n + 1))) w) ∧
  CacheService.getRateLimit key (set_redis (insert key (CNum (n + 1))) w)
    = (Ok (Num (n + 1)), set_redis (insert key (CNum (n + 1))) w).
Proof.
  intros Hf Hm Hk. split.
  - unfold CacheService.incrementRateLimit, mbind at 1, M_bind at 1. simpl.
    rewrite Hm. unfold try_catch, mbind, M_bind, attempt, get_world, modify.
    rewrite Hf. simpl. rewrite Hm. simpl.
    destruct Hk as [[-> ->]| ->]; simpl.
    + by rewrite Hf.
    + case_bool_decide; simpl; by rewrite ?Hf.
  - unfold CacheService.getRateLimit, mbind at 1, M_bind at 1. simpl.
    rewrite Hm. simpl.
    unfold try_catch, mbind, M_bind, attempt, get_world. simpl.
    rewrite Hf. simpl. rewrite Hm. simpl. by rewrite lookup_insert_eq.
Qed.

Lemma rate_limit_counts_witness :
  CacheService.incrementRateLimit "hits" 60 world_cached
    = (Ok (4 + 1)%Z, set_redis (insert "hits" (CNum (4 + 1))) world_cached) ∧
  CacheService.getRateLimit "hits"
      (set_redis (insert "hits" (CNum (4 + 1))) world_cached)
    = (Ok (Num (4 + 1)), set_redis (insert "hits" (CNum (4 + 1))) world_cached).
Proof.
  apply (rate_limit_counts "hits" 60 world_cached
           {[ "leaderboard:global" := CArr [registered; registered; registered];
              "user:u1" := CObj registered;
              "user:u1:stats" := CNum 3;
              "user:u2" := CObj registered;
              "hits" := CNum 4 ]} 4).
  - reflexivity.
  - reflexivity.
  - right. reflexivity.
Defined.

(** X18.  When Redis is not configured every cache call is a no-op,
    whatever is scheduled: reads find nothing, the rate counter is always 0,
    and [getLeaderboard] resolves with the empty list; the world is left
    exactly as it was. *)
Theorem without_redis key value prefix ttl limit w :
  redis w = None →
  CacheService.get key w = (Ok None, w) ∧
  CacheService.set key value w = (Ok tt, w) ∧
  CacheService.del key w = (Ok tt, w) ∧
  CacheService.delPattern prefix w = (Ok tt, w) ∧
  CacheService.exists_ key w = (Ok false, w) ∧
  CacheService.incrementRateLimit key ttl w = (Ok 0%Z, w) ∧
  CacheService.getRateLimit key w = (Ok (Num 0), w) ∧
  GamificationService.getLeaderboard limit w = (Ok [], w).
Proof.
  intros Hr.
  assert (CacheService.getCachedLeaderboard "global" w = (Ok None, w)) as Hget.
  { unfold CacheService.getCachedLeaderboard, CacheService.get, mbind, M_bind.
    simpl. by rewrite Hr. }
  assert (CacheService.cacheLeaderboard "global" (CArr []) w = (Ok tt, w))
    as Hset.
  { unfold CacheService.cacheLeaderboard, CacheService.set, mbind, M_bind.
    simpl. by rewrite Hr. }
  split_and!;
    try (unfold CacheService.get, CacheService.set, CacheService.del,
           CacheService.delPattern, CacheService.exists_,
           CacheService.incrementRateLimit, CacheService.getRateLimit,
           mbind, M_bind; simpl; by rewrite Hr).
  unfold GamificationService.getLeaderboard. cbv zeta.
  unfold try_catch.
  erewrite bind_run; [|exact Hget]. lazy beta iota.
  erewrite bind_run; [|exact Hset].
  by rewrite slice0_nil.
Qed.

Lemma without_redis_witness :
  let w := mkWorld {[ "u1" := registered ]} [] [] None 0 [true; true] in
  CacheService.get "hits" w = (Ok None, w) ∧
  CacheService.set "hits" (CNum 1) w = (Ok tt, w) ∧
  CacheService.del "hits" w = (Ok tt, w) ∧
  CacheService.delPattern "user:" w = (Ok tt, w) ∧
  CacheService.exists_ "hits" w = (Ok false, w) ∧
  CacheService.incrementRateLimit "hits" 60 w = (Ok 0%Z, w) ∧
  CacheService.getRateLimit "hits" w = (Ok (Num 0), w) ∧
  GamificationService.getLeaderboard None w = (Ok [], w).
Proof.
  apply (without_redis "hits" (CNum 1) "user:" 60 None
           (mkWorld {[ "u1" := registered ]} [] [] None 0 [true; true])).
  reflexivity.
Defined.

(** * FirebaseService *)

Lemma newer_first_total {A} (key : A → nat) : Total (newer_first key).
Proof. intros x y. unfold newer_first. lia. Qed.

Lemma newer_first_trans {A} (key : A → nat) : Transitive (newer_first key).
Proof. intros x y z. unfold newer_first. lia. Qed.

Lemma orderBy_desc_sorted {A} (key : A → nat) (l : list A) :
  StronglySorted (newer_first key) (orderBy_desc key l).
Proof.
  apply (@StronglySorted_merge_sort _ _ _ (newer_first_trans key)
           (newer_first_total key)).
Qed.

(** X19.  When [getUserBadges] (and likewise [getUserSubmissions])
    resolves, its result holds exactly the documents of that user, each as
    often as the collection does, ordered by [createdAt], newest first. *)
Theorem queries_newest_first userId w :
  (∀ l, (FirebaseService.getUserBadges userId w).1 = Ok l →
        l ≡ₚ filter (λ b, b_userId b = userId) (badges w) ∧
        StronglySorted (newer_first b_createdAt) l) ∧
  (∀ l, (FirebaseService.getUserSubmissions userId w).1 = Ok l →
        l ≡ₚ filter (λ s, s_userId s = userId) (submissions w) ∧
        StronglySorted (newer_first s_createdAt) l).
Proof.
  split.
  - apply (wp_getUserBadges userId w (λ r _, ∀ l, r = Ok l → _)).
    + intros _ _ l [= <-]. split; [apply orderBy_desc_perm|apply orderBy_desc_sorted].
    + intros _ _ _ l [=].
  - apply (wp_getUserSubmissions userId w (λ r _, ∀ l, r = Ok l → _)).
    + intros _ _ l [= <-]. split; [apply orderBy_desc_perm|apply orderBy_desc_sorted].
    + intros _ _ _ l [=].
Qed.

(** X20.  When no remote call is rejected, [getUser] resolves with null
    for a missing document and otherwise with the stored fields plus an
    [id] field, which is the document id unless the document itself stores
    an [id] field, which then wins. *)
Theorem getUser_id userId w :
  faults w = [] →
  match users w !! userId with
  | None => FirebaseService.getUser userId w = (Ok None, w)
  | Some d =>
      ∃ user,
        FirebaseService.getUser userId w = (Ok (Some user), w) ∧
        user !! "id" = Some (default (VStr userId) (d !! "id")) ∧
        ∀ k, k ≠ "id" → user !! k = d !! k
  end.
Proof.
  intros Hf. rewrite getUser_run by done.
  destruct (users w !! userId) as [d|]; [|done]. simpl.
  eexists. split; [done|]. split.
  - rewrite lookup_union, lookup_singleton_eq. by destruct (d !! "id").
  - intros k Hk. by apply lookup_with_id.
Qed.

Lemma getUser_id_witness :
  match users world_u1 !! "u1" with
  | None => FirebaseService.getUser "u1" world_u1 = (Ok None, world_u1)
  | Some d =>
      ∃ user,
        FirebaseService.getUser "u1" world_u1 = (Ok (Some user), world_u1) ∧
        user !! "id" = Some (default (VStr "u1") (d !! "id")) ∧
        ∀ k, k ≠ "id" → user !! k = d !! k
  end.
Proof. apply (getUser_id "u1" world_u1). reflexivity. Defined.

Lemma deleteUser_run userId w :
  faults w = [] →
  FirebaseService.deleteUser userId w = (Ok tt, set_users (delete userId) w).
Proof.
  intros Hf. unfold FirebaseService.deleteUser, mbind, M_bind, attempt.
  by rewrite Hf.
Qed.

Lemma createUser_run userId userData w :
  faults w = [] →
  FirebaseService.createUser userId userData w
  = (Ok tt,
     set_users (insert userId
                  (<[ "updatedAt" := VTime (S (clock w)) ]>
                     (<[ "createdAt" := VTime (clock w) ]> userData)))
       (set_clock (S (S (clock w))) w)).
Proof.
  intros Hf. unfold FirebaseService.createUser, mbind, M_bind, attempt, now.
  simpl. by rewrite Hf.
Qed.

(** X21.  When no remote call is rejected, [deleteUser] removes the user
    document and nothing else: the user's badges and submissions stay in
    their collections.  Afterwards [awardPoints] for that user rejects with
    "User not found" and [checkAndAwardBadges] resolves with the empty
    list. *)
Theorem deleteUser_then userId points reason w :
  faults w = [] →
  let w1 := (FirebaseService.deleteUser userId w).2 in
  users w1 = delete userId (users w) ∧
  badges w1 = badges w ∧
  submissions w1 = submissions w ∧
  (GamificationService.awardPoints userId points reason w1).1
    = Throw (JsError "User not found") ∧
  (GamificationService.checkAndAwardBadges userId w1).1 = Ok [].
Proof.
  intros Hf w1. subst w1. rewrite deleteUser_run by done.
  simpl. split_and!; try done.
  - set (w1 := set_users (delete userId) w).
    assert (users w1 !! userId = None) as Hnone by apply lookup_delete_eq.
    pose proof (awardPoints_outcome userId points reason w1) as H. unfold wp in H.
    destruct H as [(_ & (d & t & Hd & _) & _)|(e & -> & _ & He)]; [congruence|].
    by destruct (He Hf) as [_ ->].
  - by destruct (evaluate_outcome userId (set_users (delete userId) w)) as (-> & _).
Qed.

Lemma deleteUser_then_witness :
  let w1 := (FirebaseService.deleteUser "u1" world_u1).2 in
  users w1 = delete "u1" (users world_u1) ∧
  badges w1 = badges world_u1 ∧
  submissions w1 = submissions world_u1 ∧
  (GamificationService.awardPoints "u1" 100 "challenge" w1).1
    = Throw (JsError "User not found") ∧
  (GamificationService.checkAndAwardBadges "u1" w1).1 = Ok [].
Proof. apply (deleteUser_then "u1" 100 "challenge" world_u1). reflexivity. Defined.

(** X22.  When no remote call is rejected, [createUser] with data that has
    no [totalPoints] field (as registration writes it) replaces whatever
    document the user had, and after any sequence of awards and badge
    evaluations the user's [totalPoints] is exactly the sum of the points
    awarded to that user. *)
Theorem createUser_then_awards userId userData cs w :
  faults w = [] →
  userData !! "totalPoints" = None →
  Forall (λ c, ¬ is_complete c) cs →
  totalPoints_of
    (run_calls cs (FirebaseService.createUser userId userData w).2) userId
  = awarded_to userId cs.
Proof.
  intros Hf Hdata Hcs. rewrite createUser_run by done. simpl.
  rewrite run_calls_total; [|done|done|].
  - unfold totalPoints_of. simpl. rewrite lookup_insert_eq. simpl.
    rewrite !lookup_insert_ne by done. rewrite Hdata. simpl. lia.
  - simpl. rewrite lookup_insert_eq. by eexists.
Qed.

Lemma createUser_then_awards_witness :
  totalPoints_of
    (run_calls [Award "u9" 100 "challenge"; Evaluate "u9"; Award "u1" 5 "login";
                Award "u9" 50 "badge"]
       (FirebaseService.createUser "u9" registered world_u1).2) "u9"
  = awarded_to "u9" [Award "u9" 100 "challenge"; Evaluate "u9";
                     Award "u1" 5 "login"; Award "u9" 50 "badge"].
Proof.
  apply (createUser_then_awards "u9" registered _ world_u1).
  - reflexivity.
  - reflexivity.
  - repeat constructor; simpl; tauto.
Defined.

(** X23.  [awardBadge] called with two arguments, as [checkAndAwardBadges]
    calls it, always rejects, before anything is sent to Firestore: it
    writes no badge and only the clock has been read.  Called with
    [metadata], when the write is not rejected, it appends one badge
    document with that [metadata] and resolves with the document's id. *)
Theorem awardBadge_outcome userId badgeType metadata w :
  match metadata with
  | None =>
      FirebaseService.awardBadge userId badgeType None w
      = (Throw (JsError "Cannot use undefined as a Firestore value (found in field metadata)"),
         set_clock (S (clock w)) w)
  | Some v =>
      faults w = [] →
      FirebaseService.awardBadge userId badgeType (Some v) w
      = (Ok (length (badges w)),
         set_badges (λ bs, bs ++ [mkBadge userId badgeType (Some v) (clock w)])
           (set_clock (S (clock w)) w))
  end.
Proof.
  destruct metadata as [v|]; [|reflexivity].
  intros Hf.
  unfold FirebaseService.awardBadge, FirebaseService.createBadge,
    mbind, M_bind, attempt, now, modify, get_world.
  simpl. by rewrite Hf.
Qed.

Lemma awardBadge_outcome_witness :
  FirebaseService.awardBadge "u1" "explorer" (Some (VStr "manual")) world_u1
  = (Ok (length (badges world_u1)),
     set_badges (λ bs, bs ++ [mkBadge "u1" "explorer" (Some (VStr "manual"))
                               (clock world_u1)])
       (set_clock (S (clock world_u1)) world_u1)).
Proof.
  apply (awardBadge_outcome "u1" "explorer" (Some (VStr "manual")) world_u1).
  reflexivity.
Defined.
